(** * Provider adapter and streaming normalization layer

    A shallow embedding of the MiniMax and Mistral adapters of
    [platform/backend/src/routes/proxy/adapterV2] (request, response and
    stream adapters, TOON compression of tool results), followed by the
    properties of the specification that were checked against them.

    Conventions of the embedding:
    - JavaScript strings are [string], a character being one code unit below
      256;
    - [JSON.parse] belongs to the runtime and is not modelled: every
      function that calls it takes it as an argument, a function from the
      text to the value it returns, [None] when it throws; the values it
      returns are of a type [Value] about which nothing is assumed;
    - a value the adapters build and serialize themselves is a [Json.json]
      (numbers are integers, an object is the list of its members in order),
      and [JSON.stringify] of such a value is [Json.JSON_stringify];
    - a plain object used as a map is a [gmap] of its own properties (the
      properties a plain object inherits, such as [constructor], are not
      modelled);
    - [null] and [undefined] are [None];
    - a method that mutates its adapter takes the adapter and returns the
      new one; [Date.now()] is an argument;
    - a thrown exception is [None]. *)

From Stdlib Require Import ZArith QArith Lia List String Ascii Bool Decimal DecimalZ.
From stdpp Require Import gmap strings list.
Local Open Scope Z_scope.
Local Open Scope nat_scope.

(** * Part I: the model *)

(** ** JSON values and [JSON.stringify] *)

Module Json.
Local Open Scope char_scope.
Local Open Scope nat_scope.

#[local] Set Warnings "-register-all".
Inductive json : Type :=
| JNull
| JBool (b : bool)
| JNum (n : Z)
| JStr (s : string)
| JArr (items : list json)
| JObj (members : list (string * json)).

(** *** [JSON.stringify] *)

Definition dquote : ascii := ascii_of_nat 34.

Definition backspace : ascii := ascii_of_nat 8.

Definition formfeed : ascii := ascii_of_nat 12.

Definition newline : ascii := ascii_of_nat 10.

Definition carriage : ascii := ascii_of_nat 13.

Definition tab : ascii := ascii_of_nat 9.

Definition is_control (c : ascii) : bool := (nat_of_ascii c <? 32)%nat.

Definition hex_digit (n : nat) : ascii :=
  match n with
  | 0 => "0" | 1 => "1" | 2 => "2" | 3 => "3" | 4 => "4" | 5 => "5" | 6 => "6"
  | 7 => "7" | 8 => "8" | 9 => "9" | 10 => "a" | 11 => "b" | 12 => "c"
  | 13 => "d" | 14 => "e" | _ => "f"
  end%nat.

(** The quote, the backslash and the control characters are escaped, the
    control characters by their short form where there is one. *)
Definition escape_char (c : ascii) : list ascii :=
  if Ascii.eqb c dquote then ["\"; dquote]
  else if Ascii.eqb c "\" then ["\"; "\"]
  else if Ascii.eqb c backspace then ["\"; "b"]
  else if Ascii.eqb c formfeed then ["\"; "f"]
  else if Ascii.eqb c newline then ["\"; "n"]
  else if Ascii.eqb c carriage then ["\"; "r"]
  else if Ascii.eqb c tab then ["\"; "t"]
  else if is_control c then
    ["\"; "u"; "0"; "0"; hex_digit (nat_of_ascii c / 16); hex_digit (nat_of_ascii c mod 16)]
  else [c].

Fixpoint escape (s : string) : list ascii :=
  match s with
  | EmptyString => []
  | String c s' => escape_char c ++ escape s'
  end.

Definition quote (s : string) : list ascii := dquote :: escape s ++ [dquote].

Fixpoint uint_chars (u : Decimal.uint) : list ascii :=
  match u with
  | Nil => []
  | D0 u => "0" :: uint_chars u | D1 u => "1" :: uint_chars u
  | D2 u => "2" :: uint_chars u | D3 u => "3" :: uint_chars u
  | D4 u => "4" :: uint_chars u | D5 u => "5" :: uint_chars u
  | D6 u => "6" :: uint_chars u | D7 u => "7" :: uint_chars u
  | D8 u => "8" :: uint_chars u | D9 u => "9" :: uint_chars u
  end.

(** The decimal digits of an integer, with its sign. *)
Definition number_chars (n : Z) : list ascii :=
  match Z.to_int n with
  | Decimal.Pos u => uint_chars u
  | Decimal.Neg u => "-" :: uint_chars u
  end.

Fixpoint join (parts : list (list ascii)) : list ascii :=
  match parts with
  | [] => []
  | [p] => p
  | p :: ps => p ++ "," :: join ps
  end.

(** The compact text, without blanks, members in order. *)
Fixpoint stringify_chars (v : json) : list ascii :=
  match v with
  | JNull => ["n"; "u"; "l"; "l"]
  | JBool true => ["t"; "r"; "u"; "e"]
  | JBool false => ["f"; "a"; "l"; "s"; "e"]
  | JNum n => number_chars n
  | JStr s => quote s
  | JArr items => "[" :: join (map stringify_chars items) ++ ["]"]
  | JObj members =>
      "{" :: join (map (fun kv => quote (fst kv) ++ ":" :: stringify_chars (snd kv)) members)
          ++ ["}"]
  end.

Definition JSON_stringify (v : json) : string :=
  string_of_list_ascii (stringify_chars v).

(** *** A reader of serialized values

    The adapters take the runtime's [JSON.parse] as an argument. The
    reader below is one function that can stand for it where an example
    has to run: a recursive-descent reader of the texts [JSON_stringify]
    writes. It refuses a number with a fraction or an exponent and an
    escape above [\u00FF], which the runtime's parser accepts: the
    theorems about the adapters are stated for any parser, and the reader
    appears only in their instances. [None] is the SyntaxError.
    The fuel bounds the nesting and the number of elements, and the length
    of the text is always enough of it. *)

Definition is_ws (c : ascii) : bool :=
  Ascii.eqb c " " || Ascii.eqb c tab || Ascii.eqb c newline || Ascii.eqb c carriage.

Fixpoint skip_ws (cs : list ascii) : list ascii :=
  match cs with
  | c :: cs' => if is_ws c then skip_ws cs' else cs
  | [] => []
  end.

Definition digit_of (c : ascii) : option (Decimal.uint -> Decimal.uint) :=
  match c with
  | "0" => Some D0 | "1" => Some D1 | "2" => Some D2 | "3" => Some D3
  | "4" => Some D4 | "5" => Some D5 | "6" => Some D6 | "7" => Some D7
  | "8" => Some D8 | "9" => Some D9 | _ => None
  end.

Fixpoint lex_uint (cs : list ascii) : Decimal.uint * list ascii :=
  match cs with
  | [] => (Nil, [])
  | c :: cs' =>
      match digit_of c with
      | Some d => let (u, r) := lex_uint cs' in (d u, r)
      | None => (Nil, cs)
      end
  end.

(* "0" alone, or a digit string without a leading zero *)
Definition int_literal (u : Decimal.uint) : bool :=
  match u with
  | Nil => false
  | D0 Nil => true
  | D0 _ => false
  | _ => true
  end.

Definition starts_fraction (cs : list ascii) : bool :=
  match cs with
  | c :: _ => Ascii.eqb c "." || Ascii.eqb c "e" || Ascii.eqb c "E"
  | [] => false
  end.

Definition split_sign (cs : list ascii) : bool * list ascii :=
  match cs with
  | "-" :: cs' => (true, cs')
  | _ => (false, cs)
  end.

(** An integer literal; a fraction or an exponent after it is refused. *)
Definition parse_number (cs : list ascii) : option (Z * list ascii) :=
  let (neg, ds) := split_sign cs in
  let (u, r) := lex_uint ds in
  if int_literal u && negb (starts_fraction r)
  then Some (Z.of_int (if neg then Decimal.Neg u else Decimal.Pos u), r)
  else None.

(* the digits 0-9, a-f and A-F, by their character codes *)
Definition hex_value (c : ascii) : option nat :=
  let n := nat_of_ascii c in
  if (48 <=? n) && (n <=? 57) then Some (n - 48)
  else if (97 <=? n) && (n <=? 102) then Some (n - 87)
  else if (65 <=? n) && (n <=? 70) then Some (n - 55)
  else None.

(** [\uXXXX], for the code units this model of strings has. *)
Definition unicode_escape (h1 h2 h3 h4 : ascii) : option ascii :=
  match hex_value h1, hex_value h2, hex_value h3, hex_value h4 with
  | Some a, Some b, Some c, Some d =>
      let n := (((a * 16 + b) * 16 + c) * 16 + d)%nat in
      if (n <? 256)%nat then Some (ascii_of_nat n) else None
  | _, _, _, _ => None
  end.

Definition simple_escape (e : ascii) : option ascii :=
  if Ascii.eqb e dquote then Some dquote
  else match e with
       | "\" => Some "\" | "/" => Some "/"
       | "b" => Some backspace | "f" => Some formfeed | "n" => Some newline
       | "r" => Some carriage | "t" => Some tab
       | _ => None
       end.

Definition cons_char (c : ascii) (r : option (string * list ascii)) :
    option (string * list ascii) :=
  match r with
  | Some (s, rest) => Some (String c s, rest)
  | None => None
  end.

(* the characters after an opening quote, up to and including the closing one *)
Fixpoint parse_string_body (cs : list ascii) : option (string * list ascii) :=
  match cs with
  | [] => None
  | c :: cs1 =>
      if Ascii.eqb c dquote then Some (EmptyString, cs1)
      else if Ascii.eqb c "\" then
        match cs1 with
        | [] => None
        | e :: cs2 =>
            if Ascii.eqb e "u" then
              match cs2 with
              | h1 :: h2 :: h3 :: h4 :: cs3 =>
                  match unicode_escape h1 h2 h3 h4 with
                  | Some d => cons_char d (parse_string_body cs3)
                  | None => None
                  end
              | _ => None
              end
            else
              match simple_escape e with
              | Some d => cons_char d (parse_string_body cs2)
              | None => None
              end
        end
      else if is_control c then None
      else cons_char c (parse_string_body cs1)
  end.

(* skip blanks, then require the character [c] *)
Definition expect (c : ascii) (cs : list ascii) : option (list ascii) :=
  match skip_ws cs with
  | c' :: r => if Ascii.eqb c c' then Some r else None
  | [] => None
  end.

(** A value, the elements of an array after its first bracket, the members
    of an object after its first brace. *)
Fixpoint parse_value (fuel : nat) (cs : list ascii) : option (json * list ascii) :=
  match fuel with
  | O => None
  | S fuel' =>
      match skip_ws cs with
      | "n" :: "u" :: "l" :: "l" :: r => Some (JNull, r)
      | "t" :: "r" :: "u" :: "e" :: r => Some (JBool true, r)
      | "f" :: "a" :: "l" :: "s" :: "e" :: r => Some (JBool false, r)
      | "[" :: r =>
          match expect "]" r with
          | Some r' => Some (JArr [], r')
          | None =>
              match parse_elements fuel' r with
              | Some (items, r') => Some (JArr items, r')
              | None => None
              end
          end
      | "{" :: r =>
          match expect "}" r with
          | Some r' => Some (JObj [], r')
          | None =>
              match parse_members fuel' r with
              | Some (members, r') => Some (JObj members, r')
              | None => None
              end
          end
      | c :: r =>
          if Ascii.eqb c dquote then
            match parse_string_body r with
            | Some (s, r') => Some (JStr s, r')
            | None => None
            end
          else
            match parse_number (c :: r) with
            | Some (n, r') => Some (JNum n, r')
            | None => None
            end
      | [] => None
      end
  end
with parse_elements (fuel : nat) (cs : list ascii) : option (list json * list ascii) :=
  match fuel with
  | O => None
  | S fuel' =>
      match parse_value fuel' cs with
      | Some (v, r) =>
          match expect "," r with
          | Some r' =>
              match parse_elements fuel' r' with
              | Some (vs, r'') => Some (v :: vs, r'')
              | None => None
              end
          | None =>
              match expect "]" r with
              | Some r' => Some ([v], r')
              | None => None
              end
          end
      | None => None
      end
  end
with parse_members (fuel : nat) (cs : list ascii) :
    option (list (string * json) * list ascii) :=
  match fuel with
  | O => None
  | S fuel' =>
      match expect dquote cs with
      | Some r0 =>
          match parse_string_body r0 with
          | Some (k, r1) =>
              match expect ":" r1 with
              | Some r2 =>
                  match parse_value fuel' r2 with
                  | Some (v, r3) =>
                      match expect "," r3 with
                      | Some r4 =>
                          match parse_members fuel' r4 with
                          | Some (kvs, r5) => Some ((k, v) :: kvs, r5)
                          | None => None
                          end
                      | None =>
                          match expect "}" r3 with
                          | Some r4 => Some ([(k, v)], r4)
                          | None => None
                          end
                      end
                  | None => None
                  end
              | None => None
              end
          | None => None
          end
      | None => None
      end
  end.

(** The whole text is one value, blanks around it allowed. *)
Definition parse_chars (cs : list ascii) : option json :=
  match parse_value (S (length cs)) cs with
  | Some (v, r) => match skip_ws r with [] => Some v | _ => None end
  | None => None
  end.

Definition read_text (s : string) : option json :=
  parse_chars (list_ascii_of_string s).

(** Induction principle that reaches the values nested in arrays and objects. *)
Section JsonInduction.
Variable P : json -> Prop.
Hypothesis Hnull : P JNull.
Hypothesis Hbool : forall b, P (JBool b).
Hypothesis Hnum : forall n, P (JNum n).
Hypothesis Hstr : forall s, P (JStr s).
Hypothesis Harr : forall items, Forall P items -> P (JArr items).
Hypothesis Hobj : forall members, Forall (fun kv => P (snd kv)) members -> P (JObj members).

Fixpoint json_nested_ind (v : json) : P v :=
  match v with
  | JNull => Hnull
  | JBool b => Hbool b
  | JNum n => Hnum n
  | JStr s => Hstr s
  | JArr items =>
      Harr items
        ((fix go (l : list json) : Forall P l :=
            match l with
            | [] => @List.Forall_nil _ P
            | x :: l' => @List.Forall_cons _ P x l' (json_nested_ind x) (go l')
            end) items)
  | JObj members =>
      Hobj members
        ((fix go (l : list (string * json)) : Forall (fun kv => P (snd kv)) l :=
            match l with
            | [] => @List.Forall_nil _ _
            | kv :: l' => @List.Forall_cons _ _ kv l' (json_nested_ind (snd kv)) (go l')
            end) members)
  end.
End JsonInduction.

End Json.
Import Json.

Local Open Scope string_scope.
Local Open Scope list_scope.

(** JavaScript truthiness of a [string | null | undefined]. *)
Definition truthy (o : option string) : bool :=
  match o with
  | Some s => negb (String.eqb s "")
  | None => false
  end.

(** The two provider families of [adapterV2/minimax.ts]. *)
Inductive Provider : Type := minimax | mistral.

(** ** Wire types of the OpenAI-compatible chat-completions API

    One set of records serves both providers: the zod schemas of Mistral
    are those of MiniMax without the developer and function roles, without
    [function_call] and [logprobs], and with image parts in user content. *)

Module Wire.

Inductive Role : Type :=
| RoleDeveloper | RoleSystem | RoleUser | RoleAssistant | RoleTool | RoleFunction.

Inductive ContentPart : Type :=
| TextPart (text : string)
| ImagePart (url detail : string).

Inductive MessageContent : Type :=
| ContentText (s : string)
| ContentParts (parts : list ContentPart).

(** [z.enum(["function"])] *)
Inductive ToolCallType : Type := FunctionType.

Record FunctionCall : Type := {
  fc_arguments : string;
  fc_name : string
}.

Record ToolCall : Type := {
  tc_id : string;
  tc_type : ToolCallType;
  tc_function : FunctionCall
}.

Record PlainMessage : Type := {
  pm_content : MessageContent;
  pm_name : option string
}.

Record AssistantMessage : Type := {
  am_content : option MessageContent;
  am_function_call : option FunctionCall;
  am_name : option string;
  am_tool_calls : option (list ToolCall)
}.

Record ToolMessage : Type := {
  tm_content : MessageContent;
  tm_tool_call_id : string;
  tm_name : option string
}.

Record FunctionMessage : Type := {
  fm_content : option string;
  fm_name : string
}.

Inductive Message : Type :=
| MDeveloper (m : PlainMessage)
| MSystem (m : PlainMessage)
| MUser (m : PlainMessage)
| MAssistant (m : AssistantMessage)
| MTool (m : ToolMessage)
| MFunction (m : FunctionMessage).

Definition role (m : Message) : Role :=
  match m with
  | MDeveloper _ => RoleDeveloper
  | MSystem _ => RoleSystem
  | MUser _ => RoleUser
  | MAssistant _ => RoleAssistant
  | MTool _ => RoleTool
  | MFunction _ => RoleFunction
  end.

Record FunctionDefinition : Type := {
  fd_name : string;
  fd_description : option string;
  fd_parameters : option json;
  fd_strict : option bool
}.

Inductive ToolType : Type := ToolFunction.

Record Tool : Type := {
  tool_type : ToolType;
  tool_function : FunctionDefinition
}.

(** [req_rest] holds the properties the adapters only copy ([tool_choice],
    [temperature], [max_tokens], ...). *)
Record Request : Type := {
  req_model : string;
  req_messages : list Message;
  req_tools : option (list Tool);
  req_stream : option bool;
  req_rest : list (string * json)
}.

Record Usage : Type := {
  completion_tokens : Z;
  prompt_tokens : Z;
  total_tokens : Z
}.

Record ResponseMessage : Type := {
  rm_role : Role;
  rm_content : option string;
  rm_function_call : option FunctionCall;
  rm_tool_calls : option (list ToolCall)
}.

(** [choice_index] and [choice_logprobs] are the properties a spread of the
    choice copies; they are [None] where the spread object has none. *)
Record Choice : Type := {
  choice_index : option Z;
  choice_logprobs : option json;
  choice_message : ResponseMessage;
  choice_finish_reason : string
}.

Record Response : Type := {
  resp_id : string;
  resp_object : string;
  resp_created : Z;
  resp_model : string;
  resp_choices : list Choice;
  resp_usage : option Usage
}.

(** Stream chunks ([Mistral.Types.ChatCompletionChunk], and the OpenAI chunk
    type MiniMax reuses). *)
Record ToolCallDeltaFunction : Type := {
  tdf_name : option string;
  tdf_arguments : option string
}.

Record ToolCallDelta : Type := {
  tcd_index : Z;
  tcd_id : option string;
  tcd_function : option ToolCallDeltaFunction
}.

Record Delta : Type := {
  d_role : option string;
  d_content : option string;
  d_tool_calls : option (list ToolCallDelta)
}.

Record ChunkChoice : Type := {
  cc_index : Z;
  cc_delta : Delta;
  cc_finish_reason : option string
}.

(** The adapters read the token counts through [?? 0]. *)
Record ChunkUsage : Type := {
  cu_prompt_tokens : option Z;
  cu_completion_tokens : option Z
}.

Record Chunk : Type := {
  ch_id : string;
  ch_created : Z;
  ch_model : string;
  ch_choices : list ChunkChoice;
  ch_usage : option ChunkUsage
}.

End Wire.
Import Wire.

(** ** Canonical types of [@/types] *)

Module Common.

(** The [content: unknown] of a tool result, as the request adapters fill
    it: what [JSON.parse] made of a string content, the string itself when
    [JSON.parse] threw, or the content itself when it is not a string. *)
Inductive ToolResultContent (Value : Type) : Type :=
| ParsedContent (value : Value)
| RawContent (text : string)
| PartsContent (parts : list ContentPart).

Arguments ParsedContent {Value} value.
Arguments RawContent {Value} text.
Arguments PartsContent {Value} parts.

Record CommonToolResult (Value : Type) : Type := {
  ctr_id : string;
  ctr_name : string;
  ctr_content : ToolResultContent Value;
  ctr_isError : bool
}.

Arguments Build_CommonToolResult {Value} _ _ _ _.
Arguments ctr_id {Value} _.
Arguments ctr_name {Value} _.
Arguments ctr_content {Value} _.
Arguments ctr_isError {Value} _.

(** Modelled from the spec: the [CommonMessage] type of [@/types], whose
    declaration is not among the sources; the spec gives it a role, a
    content and an optional [toolCalls]. *)
Record CommonMessage (Value : Type) : Type := {
  cm_role : Role;
  cm_content : option json;
  cm_toolCalls : option (list (CommonToolResult Value))
}.

Arguments Build_CommonMessage {Value} _ _ _.
Arguments cm_role {Value} _.
Arguments cm_content {Value} _.
Arguments cm_toolCalls {Value} _.

Record CommonMcpToolDefinition : Type := {
  ctd_name : string;
  ctd_description : option string;
  ctd_inputSchema : option json
}.

Record UsageView : Type := {
  inputTokens : Z;
  outputTokens : Z
}.

Record ToolCompressionStats : Type := {
  originalBytes : nat;
  compressedBytes : nat;
  removedBytes : nat;
  compressedCount : nat;
  removedCount : nat
}.

Record ToonCompressionResult : Type := {
  tokensBefore : option Z;
  tokensAfter : option Z;
  costSavings : option Q
}.

(** The array of parts of a content that is not a string, as a value to
    serialize. *)
Definition partValue (p : ContentPart) : json :=
  match p with
  | TextPart t => JObj [("type", JStr "text"); ("text", JStr t)]
  | ImagePart url detail =>
      JObj [("type", JStr "image_url");
            ("image_url", JObj [("url", JStr url); ("detail", JStr detail)])]
  end.

Definition partsValue (parts : list ContentPart) : json :=
  JArr (map partValue parts).

End Common.
Import Common.

(** ** TOON compression of tool results *)

Module Toon.

(** What the compression consumes from outside the repository: the
    tokenizers, the [@toon-format/toon] encoder in the two shapes the call
    sites use, the price table, and [unwrapToolContent] (a helper of
    [../utils], not among the sources). [Value] is the type of what
    [JSON.parse] returns. A call that throws is [None]: the encoder in
    both shapes (MiniMax's tokenizer runs inside the encoder, as its
    callback), and Mistral's [unwrapToolContent] and [countTokens], which
    are called inside the [try]. [getTokenizer] and the price lookup are
    called outside it and are taken not to fail. *)
Record Externals (Value : Type) : Type := {
  tokenizerEncode : string -> string -> list Z;
  toonEncodeBudgeted : Value -> (string -> list Z) -> Z -> option (string * bool);
  toonEncode : Value -> option string;
  countTokens : string -> option Z;
  unwrapToolContent : string -> option string;
  pricePerMillionInput : string -> option Q
}.

Arguments tokenizerEncode {Value} _ _ _.
Arguments toonEncodeBudgeted {Value} _ _ _ _.
Arguments toonEncode {Value} _ _.
Arguments countTokens {Value} _ _.
Arguments unwrapToolContent {Value} _ _.
Arguments pricePerMillionInput {Value} _ _.

Definition emptyStats : ToolCompressionStats :=
  {| originalBytes := 0; compressedBytes := 0; removedBytes := 0;
     compressedCount := 0; removedCount := 0 |}.

(** [typeof content === "string" ? content : JSON.stringify(content)] *)
Definition originalContent (c : MessageContent) : string :=
  match c with
  | ContentText s => s
  | ContentParts parts => JSON_stringify (partsValue parts)
  end.

Definition keptAs (original : string) (stats : ToolCompressionStats) :
    ToolCompressionStats :=
  {| originalBytes := originalBytes stats;
     compressedBytes := compressedBytes stats + String.length original;
     removedBytes := removedBytes stats;
     compressedCount := compressedCount stats;
     removedCount := removedCount stats |}.

Definition replacedBy (compressed : string) (stats : ToolCompressionStats) :
    ToolCompressionStats :=
  {| originalBytes := originalBytes stats;
     compressedBytes := compressedBytes stats + String.length compressed;
     removedBytes := removedBytes stats;
     compressedCount := S (compressedCount stats);
     removedCount := removedCount stats |}.

Definition countOriginal (original : string) (stats : ToolCompressionStats) :
    ToolCompressionStats :=
  {| originalBytes := originalBytes stats + String.length original;
     compressedBytes := compressedBytes stats;
     removedBytes := removedBytes stats;
     compressedCount := compressedCount stats;
     removedCount := removedCount stats |}.

Definition withContent (tm : ToolMessage) (content : string) : ToolMessage :=
  {| tm_content := ContentText content;
     tm_tool_call_id := tm_tool_call_id tm;
     tm_name := tm_name tm |}.

Record MistralTotals : Type := {
  toolResultCount : nat;
  totalTokensBefore : Z;
  totalTokensAfter : Z
}.

Record CompressionStats : Type := {
  toonTokensBefore : option Z;
  toonTokensAfter : option Z;
  toonCostSavings : option Q
}.

Section Compression.
Context {Value : Type} (JSON_parse : string -> option Value).

(** The callback MiniMax's [convertToolResultsToToon] maps over the
    messages. *)
Definition compressMinimax (ext : Externals Value) (model : string) (message : Message)
    (stats : ToolCompressionStats) : Message * ToolCompressionStats :=
  match message with
  | MTool tm =>
      let original := originalContent (tm_content tm) in
      let stats1 := countOriginal original stats in
      match JSON_parse original with
      | Some parsedContent =>
          match toonEncodeBudgeted ext parsedContent (tokenizerEncode ext model) 4000%Z with
          | Some (compressedContent, true) =>
              (MTool (withContent tm compressedContent),
               replacedBy compressedContent stats1)
          | Some (_, false) => (message, keptAs original stats1)
          | None => (message, keptAs original stats1)
          end
      | None => (message, keptAs original stats1)
      end
  | _ => (message, stats)
  end.

Fixpoint convertToolResultsToToonMinimax (ext : Externals Value) (model : string)
    (messages : list Message) (stats : ToolCompressionStats) :
    list Message * ToolCompressionStats :=
  match messages with
  | [] => ([], stats)
  | message :: rest =>
      let (message', stats1) := compressMinimax ext model message stats in
      let (rest', stats2) := convertToolResultsToToonMinimax ext model rest stats1 in
      (message' :: rest', stats2)
  end.

(** The callback Mistral's [convertToolResultsToToon] maps over the
    messages. Everything from the unwrapping to the second token count is
    inside the [try]; the totals are added to after it all succeeded. *)
Definition compressMistral (ext : Externals Value) (message : Message)
    (totals : MistralTotals) : Message * MistralTotals :=
  match message with
  | MTool tm =>
      match tm_content tm with
      | ContentText content =>
          match unwrapToolContent ext content with
          | Some unwrapped =>
              match JSON_parse unwrapped with
              | Some parsed =>
                  match toonEncode ext parsed with
                  | Some compressed =>
                      match countTokens ext unwrapped with
                      | Some before =>
                          match countTokens ext compressed with
                          | Some after =>
                              (MTool (withContent tm compressed),
                               {| toolResultCount := S (toolResultCount totals);
                                  totalTokensBefore := (totalTokensBefore totals + before)%Z;
                                  totalTokensAfter := (totalTokensAfter totals + after)%Z |})
                          | None => (message, totals)
                          end
                      | None => (message, totals)
                      end
                  | None => (message, totals)
                  end
              | None => (message, totals)
              end
          | None => (message, totals)
          end
      | ContentParts _ => (message, totals)
      end
  | _ => (message, totals)
  end.

Fixpoint mapMistral (ext : Externals Value) (messages : list Message)
    (totals : MistralTotals) : list Message * MistralTotals :=
  match messages with
  | [] => ([], totals)
  | message :: rest =>
      let (message', totals1) := compressMistral ext message totals in
      let (rest', totals2) := mapMistral ext rest totals1 in
      (message' :: rest', totals2)
  end.

Definition convertToolResultsToToonMistral (ext : Externals Value) (model : string)
    (messages : list Message) : list Message * CompressionStats :=
  let (result, totals) :=
    mapMistral ext messages
      {| toolResultCount := 0; totalTokensBefore := 0; totalTokensAfter := 0 |} in
  let counted := (0 <? toolResultCount totals)%nat in
  let tokensSaved := (totalTokensBefore totals - totalTokensAfter totals)%Z in
  let savings :=
    if counted && (0 <? tokensSaved)%Z then
      match pricePerMillionInput ext model with
      | Some price => Some (inject_Z tokensSaved * (price / inject_Z 1000000))%Q
      | None => None
      end
    else None in
  (result,
   {| toonTokensBefore := if counted then Some (totalTokensBefore totals) else None;
      toonTokensAfter := if counted then Some (totalTokensAfter totals) else None;
      toonCostSavings := savings |}).

End Compression.

End Toon.

(** ** Request adapters

    [MinimaxRequestAdapter] and [MistralRequestAdapter] have the same text
    except for [findToolNameInMessages] (MiniMax also tests the call type),
    [applyToonCompression], and the debug logging of MiniMax, which is not
    modelled. A method is a function from the adapter to its result and the
    adapter it leaves behind. *)

Module RequestAdapter.

Record t : Type := {
  request : Request;
  modifiedModel : option string;
  toolResultUpdates : gmap string string
}.

Definition M (A : Type) : Type := t -> A * t.

Definition new (r : Request) : t :=
  {| request := r; modifiedModel := None; toolResultUpdates := ∅ |}.

(** *** Private helpers *)

(** The inner [for (const toolCall of message.tool_calls)]. *)
Fixpoint matchingCall (p : Provider) (toolCalls : list ToolCall) (toolCallId : string) :
    option string :=
  match toolCalls with
  | [] => None
  | toolCall :: rest =>
      if String.eqb (tc_id toolCall) toolCallId then
        match p with
        | minimax =>
            match tc_type toolCall with
            | FunctionType => Some (fc_name (tc_function toolCall))
            end
        | mistral => Some (fc_name (tc_function toolCall))
        end
      else matchingCall p rest toolCallId
  end.

(** The outer loop, over the messages from the last to the first. *)
Fixpoint scanBackward (p : Provider) (reversed : list Message) (toolCallId : string) :
    option string :=
  match reversed with
  | [] => None
  | MAssistant am :: earlier =>
      match am_tool_calls am with
      | Some toolCalls =>
          match matchingCall p toolCalls toolCallId with
          | Some name => Some name
          | None => scanBackward p earlier toolCallId
          end
      | None => scanBackward p earlier toolCallId
      end
  | _ :: earlier => scanBackward p earlier toolCallId
  end.

Definition findToolNameInMessages (p : Provider) (messages : list Message)
    (toolCallId : string) : option string :=
  scanBackward p (rev messages) toolCallId.

Section Runtime.
Context {Value : Type} (JSON_parse : string -> option Value).

(** [JSON.parse] of a string content, the raw string when that throws; a
    content that is not a string is taken as it is. *)
Definition toolContent (c : MessageContent) : ToolResultContent Value :=
  match c with
  | ContentText s =>
      match JSON_parse s with
      | Some v => ParsedContent v
      | None => RawContent s
      end
  | ContentParts parts => PartsContent parts
  end.

Definition toCommonMessage (p : Provider) (messages : list Message) (message : Message) :
    CommonMessage Value :=
  match message with
  | MTool tm =>
      match findToolNameInMessages p messages (tm_tool_call_id tm) with
      | Some toolName =>
          if truthy (Some toolName) then
            {| cm_role := role message;
               cm_content := None;
               cm_toolCalls :=
                 Some [{| ctr_id := tm_tool_call_id tm;
                          ctr_name := toolName;
                          ctr_content := toolContent (tm_content tm);
                          ctr_isError := false |}] |}
          else {| cm_role := role message; cm_content := None; cm_toolCalls := None |}
      | None => {| cm_role := role message; cm_content := None; cm_toolCalls := None |}
      end
  | _ => {| cm_role := role message; cm_content := None; cm_toolCalls := None |}
  end.

Definition toCommonFormat (p : Provider) (messages : list Message) :
    list (CommonMessage Value) :=
  fold_left (fun commonMessages message =>
               commonMessages ++ [toCommonMessage p messages message])
            messages [].

End Runtime.

Definition applyUpdates (messages : list Message) (updates : gmap string string) :
    list Message :=
  if (size updates =? 0)%nat then messages
  else
    map (fun message =>
           match message with
           | MTool tm =>
               if truthy (updates !! tm_tool_call_id tm) then
                 match updates !! tm_tool_call_id tm with
                 | Some content => MTool (Toon.withContent tm content)
                 | None => message
                 end
               else message
           | _ => message
           end) messages.

(** *** Read access *)

Definition getModel : M string :=
  fun a => (default (req_model (request a)) (modifiedModel a), a).

Definition isStreaming : M bool :=
  fun a => (match req_stream (request a) with Some true => true | _ => false end, a).

Section Reading.
Context {Value : Type} (JSON_parse : string -> option Value).

Definition getMessages (p : Provider) : M (list (CommonMessage Value)) :=
  fun a => (toCommonFormat JSON_parse p (req_messages (request a)), a).

Definition getToolResults (p : Provider) : M (list (CommonToolResult Value)) :=
  fun a =>
    (fold_left
       (fun results message =>
          match message with
          | MTool tm =>
              results ++
              [{| ctr_id := tm_tool_call_id tm;
                  ctr_name :=
                    default "unknown"
                      (findToolNameInMessages p (req_messages (request a))
                         (tm_tool_call_id tm));
                  ctr_content := toolContent JSON_parse (tm_content tm);
                  ctr_isError := false |}]
          | _ => results
          end)
       (req_messages (request a)) [],
     a).

End Reading.

Definition getTools : M (list CommonMcpToolDefinition) :=
  fun a =>
    (match req_tools (request a) with
     | None => []
     | Some tools =>
         fold_left
           (fun result tool =>
              match tool_type tool with
              | ToolFunction =>
                  result ++
                  [{| ctd_name := fd_name (tool_function tool);
                      ctd_description := fd_description (tool_function tool);
                      ctd_inputSchema := fd_parameters (tool_function tool) |}]
              end)
           tools []
     end, a).

Definition hasTools : M bool :=
  fun a =>
    (match req_tools (request a) with
     | Some tools => (0 <? length tools)%nat
     | None => false
     end, a).

Definition getProviderMessages : M (list Message) :=
  fun a => (req_messages (request a), a).

Definition getOriginalRequest : M Request :=
  fun a => (request a, a).

(** *** Modify access *)

Definition setModel (model : string) : M unit :=
  fun a =>
    (tt, {| request := request a;
            modifiedModel := Some model;
            toolResultUpdates := toolResultUpdates a |}).

Definition updateToolResult (toolCallId newContent : string) : M unit :=
  fun a =>
    (tt, {| request := request a;
            modifiedModel := modifiedModel a;
            toolResultUpdates := <[toolCallId := newContent]> (toolResultUpdates a) |}).

(** [Object.assign(this.toolResultUpdates, updates)] *)
Definition applyToolResultUpdates (updates : gmap string string) : M unit :=
  fun a =>
    (tt, {| request := request a;
            modifiedModel := modifiedModel a;
            toolResultUpdates := updates ∪ toolResultUpdates a |}).

Definition convertToolResultContent (messages : list Message) : M (list Message) :=
  fun a => (messages, a).

Definition withMessages (r : Request) (messages : list Message) : Request :=
  {| req_model := req_model r;
     req_messages := messages;
     req_tools := req_tools r;
     req_stream := req_stream r;
     req_rest := req_rest r |}.

Section Compressing.
Context {Value : Type} (JSON_parse : string -> option Value).

Definition applyToonCompressionMinimax (ext : Toon.Externals Value) (model : string) :
    M ToolCompressionStats :=
  fun a =>
    let (compressedMessages, stats) :=
      Toon.convertToolResultsToToonMinimax JSON_parse ext model (req_messages (request a))
        Toon.emptyStats in
    (stats, {| request := withMessages (request a) compressedMessages;
               modifiedModel := modifiedModel a;
               toolResultUpdates := toolResultUpdates a |}).

Definition applyToonCompressionMistral (ext : Toon.Externals Value) (model : string) :
    M ToonCompressionResult :=
  fun a =>
    let (compressedMessages, stats) :=
      Toon.convertToolResultsToToonMistral JSON_parse ext model (req_messages (request a)) in
    ({| tokensBefore := Toon.toonTokensBefore stats;
        tokensAfter := Toon.toonTokensAfter stats;
        costSavings := Toon.toonCostSavings stats |},
     {| request := withMessages (request a) compressedMessages;
        modifiedModel := modifiedModel a;
        toolResultUpdates := toolResultUpdates a |}).

End Compressing.

(** *** Build modified request *)

Definition toProviderRequest : M Request :=
  fun a =>
    let messages :=
      if (0 <? size (toolResultUpdates a))%nat
      then applyUpdates (req_messages (request a)) (toolResultUpdates a)
      else req_messages (request a) in
    ({| req_model := fst (getModel a);
        req_messages := messages;
        req_tools := req_tools (request a);
        req_stream := req_stream (request a);
        req_rest := req_rest (request a) |}, a).

(** The calls that read the adapter, for stating what they leave behind. *)
Inductive Accessor : Type :=
| GetModel | IsStreaming | GetMessages | GetToolResults | GetTools | HasTools
| GetProviderMessages | GetOriginalRequest | ToProviderRequest.

Definition after {Value : Type} (JSON_parse : string -> option Value)
    (p : Provider) (call : Accessor) (a : t) : t :=
  match call with
  | GetModel => snd (getModel a)
  | IsStreaming => snd (isStreaming a)
  | GetMessages => snd (getMessages JSON_parse p a)
  | GetToolResults => snd (getToolResults JSON_parse p a)
  | GetTools => snd (getTools a)
  | HasTools => snd (hasTools a)
  | GetProviderMessages => snd (getProviderMessages a)
  | GetOriginalRequest => snd (getOriginalRequest a)
  | ToProviderRequest => snd (toProviderRequest a)
  end.

End RequestAdapter.

(** ** Tool-result correlation, in the words of the specification *)

Module RequestSpec.

(** The message is an assistant message whose tool-call list contains a
    tool call with this id. *)
Definition offers (toolCallId : string) (message : Message) : bool :=
  match message with
  | MAssistant am =>
      match am_tool_calls am with
      | Some toolCalls => existsb (fun tc => String.eqb (tc_id tc) toolCallId) toolCalls
      | None => false
      end
  | _ => false
  end.

(** The tool-role messages of a request, in order. *)
Definition toolMessages (messages : list Message) : list ToolMessage :=
  omap (fun message => match message with MTool tm => Some tm | _ => None end) messages.

End RequestSpec.

(** ** Response adapters *)

Module ResponseAdapter.

Record t : Type := { response : Response }.

(** [{ ...this.response.choices[0], message: ..., finish_reason: "stop" }]:
    spreading an absent first choice contributes no property. MiniMax
    builds the message without a [tool_calls] key, Mistral with
    [tool_calls: undefined]; both are [None] here. *)
Definition toRefusalResponse (p : Provider) (_refusalMessage contentMessage : string)
    (a : t) : Response :=
  let first := head (resp_choices (response a)) in
  {| resp_id := resp_id (response a);
     resp_object := resp_object (response a);
     resp_created := resp_created (response a);
     resp_model := resp_model (response a);
     resp_choices :=
       [{| choice_index := first ≫= choice_index;
           choice_logprobs := first ≫= choice_logprobs;
           choice_message :=
             {| rm_role := RoleAssistant;
                rm_content := Some contentMessage;
                rm_function_call := None;
                rm_tool_calls := match p with minimax => None | mistral => None end |};
           choice_finish_reason := "stop" |}];
     resp_usage := resp_usage (response a) |}.

End ResponseAdapter.

(** ** Stream adapters *)

Module StreamAdapter.

Record AccumulatedToolCall : Type := {
  atc_id : string;
  atc_name : string;
  atc_arguments : string
}.

Record Timing : Type := {
  startTime : Z;
  firstChunkTime : option Z
}.

Record StreamAccumulatorState : Type := {
  responseId : string;
  model : string;
  text : string;
  toolCalls : list AccumulatedToolCall;
  rawToolCallEvents : list Chunk;
  usage : option UsageView;
  stopReason : option string;
  timing : Timing
}.

Record t : Type := {
  state : StreamAccumulatorState;
  currentToolCallIndices : gmap Z nat
}.

(** The server-sent-event frame [data: ${JSON.stringify(chunk)}\n\n], kept
    as the chunk it carries. *)
Inductive SSEFrame : Type := DataFrame (payload : Chunk).

Record ChunkProcessingResult : Type := {
  sseData : option SSEFrame;
  isToolCallChunk : bool;
  isFinal : bool
}.

(** The constructor; [now] is [Date.now()]. *)
Definition new (now : Z) : t :=
  {| state :=
       {| responseId := ""; model := ""; text := ""; toolCalls := [];
          rawToolCallEvents := []; usage := None; stopReason := None;
          timing := {| startTime := now; firstChunkTime := None |} |};
     currentToolCallIndices := ∅ |}.

Definition markFirstChunk (now : Z) (tm : Timing) : Timing :=
  match firstChunkTime tm with
  | None => {| startTime := startTime tm; firstChunkTime := Some now |}
  | Some _ => tm
  end.

(** [if (delta.content) this.state.text += delta.content] *)
Definition appendContent (text : string) (content : option string) : string :=
  if truthy content then text +:+ default "" content else text.

Definition deltaName (d : ToolCallDelta) : option string :=
  tcd_function d ≫= tdf_name.

Definition deltaArguments (d : ToolCallDelta) : option string :=
  tcd_function d ≫= tdf_arguments.

(** The three guarded assignments to the slot of a tool call. *)
Definition mergeDelta (toolCall : AccumulatedToolCall) (d : ToolCallDelta) :
    AccumulatedToolCall :=
  {| atc_id := if truthy (tcd_id d) then default "" (tcd_id d) else atc_id toolCall;
     atc_name := if truthy (deltaName d) then default "" (deltaName d)
                 else atc_name toolCall;
     atc_arguments := if truthy (deltaArguments d)
                      then atc_arguments toolCall +:+ default "" (deltaArguments d)
                      else atc_arguments toolCall |}.

(** One turn of [for (const toolCallDelta of delta.tool_calls)], the same
    text in both adapters. Where the array has no such slot, [toolCall] is
    [undefined], and the first of the three assignments that runs throws a
    TypeError. *)
Definition accumulateDelta (acc : list AccumulatedToolCall * gmap Z nat)
    (d : ToolCallDelta) : option (list AccumulatedToolCall * gmap Z nat) :=
  let (calls, indices) := acc in
  let index := tcd_index d in
  let (calls1, indices1) :=
    match indices !! index with
    | None =>
        (calls ++ [{| atc_id := default "" (tcd_id d);
                      atc_name := default "" (deltaName d);
                      atc_arguments := "" |}],
         <[index := length calls]> indices)
    | Some _ => (calls, indices)
    end in
  match indices1 !! index with
  | None => Some (calls1, indices1)
  | Some toolCallIndex =>
      match calls1 !! toolCallIndex with
      | Some toolCall => Some (<[toolCallIndex := mergeDelta toolCall d]> calls1, indices1)
      | None =>
          if truthy (tcd_id d) || truthy (deltaName d) || truthy (deltaArguments d)
          then None
          else Some (calls1, indices1)
      end
  end.

Fixpoint accumulateDeltas (acc : list AccumulatedToolCall * gmap Z nat)
    (deltas : list ToolCallDelta) : option (list AccumulatedToolCall * gmap Z nat) :=
  match deltas with
  | [] => Some acc
  | d :: rest =>
      match accumulateDelta acc d with
      | Some acc1 => accumulateDeltas acc1 rest
      | None => None
      end
  end.

Definition usageView (u : ChunkUsage) : UsageView :=
  {| inputTokens := default 0%Z (cu_prompt_tokens u);
     outputTokens := default 0%Z (cu_completion_tokens u) |}.

Definition processChunkMinimax (now : Z) (chunk : Chunk) (a : t) :
    option (ChunkProcessingResult * t) :=
  let s := state a in
  let timing1 := markFirstChunk now (timing s) in
  match ch_choices chunk with
  | [] =>
      Some ({| sseData := None; isToolCallChunk := false; isFinal := false |},
            {| state :=
                 {| responseId := ch_id chunk; model := ch_model chunk;
                    text := text s; toolCalls := toolCalls s;
                    rawToolCallEvents := rawToolCallEvents s; usage := usage s;
                    stopReason := stopReason s; timing := timing1 |};
               currentToolCallIndices := currentToolCallIndices a |})
  | choice :: _ =>
      let delta := cc_delta choice in
      let text1 := appendContent (text s) (d_content delta) in
      let hasContent :=
        truthy (d_content delta) || bool_decide (is_Some (d_tool_calls delta))
        || truthy (d_role delta) in
      let sse := if hasContent then Some (DataFrame chunk) else None in
      match d_tool_calls delta with
      | Some deltas =>
          match accumulateDeltas (toolCalls s, currentToolCallIndices a) deltas with
          | Some (calls1, indices1) =>
              Some ({| sseData := sse; isToolCallChunk := true;
                       isFinal := truthy (cc_finish_reason choice) |},
                    {| state :=
                         {| responseId := ch_id chunk; model := ch_model chunk;
                            text := text1; toolCalls := calls1;
                            rawToolCallEvents := rawToolCallEvents s ++ [chunk];
                            usage := match ch_usage chunk with
                                     | Some u => Some (usageView u)
                                     | None => usage s
                                     end;
                            stopReason := if truthy (cc_finish_reason choice)
                                          then cc_finish_reason choice
                                          else stopReason s;
                            timing := timing1 |};
                       currentToolCallIndices := indices1 |})
          | None => None
          end
      | None =>
          Some ({| sseData := sse; isToolCallChunk := false;
                   isFinal := truthy (cc_finish_reason choice) |},
                {| state :=
                     {| responseId := ch_id chunk; model := ch_model chunk;
                        text := text1; toolCalls := toolCalls s;
                        rawToolCallEvents := rawToolCallEvents s;
                        usage := match ch_usage chunk with
                                 | Some u => Some (usageView u)
                                 | None => usage s
                                 end;
                        stopReason := if truthy (cc_finish_reason choice)
                                      then cc_finish_reason choice
                                      else stopReason s;
                        timing := timing1 |};
                   currentToolCallIndices := currentToolCallIndices a |})
      end
  end.

Definition processChunkMistral (now : Z) (chunk : Chunk) (a : t) :
    option (ChunkProcessingResult * t) :=
  let s := state a in
  let timing1 := markFirstChunk now (timing s) in
  let usage1 := match ch_usage chunk with
                | Some u => Some (usageView u)
                | None => usage s
                end in
  match ch_choices chunk with
  | [] =>
      Some ({| sseData := None; isToolCallChunk := false;
               isFinal := bool_decide (is_Some usage1) |},
            {| state :=
                 {| responseId := ch_id chunk; model := ch_model chunk;
                    text := text s; toolCalls := toolCalls s;
                    rawToolCallEvents := rawToolCallEvents s; usage := usage1;
                    stopReason := stopReason s; timing := timing1 |};
               currentToolCallIndices := currentToolCallIndices a |})
  | choice :: _ =>
      let delta := cc_delta choice in
      let text1 := appendContent (text s) (d_content delta) in
      let sse := if truthy (d_content delta) then Some (DataFrame chunk) else None in
      match d_tool_calls delta with
      | Some deltas =>
          match accumulateDeltas (toolCalls s, currentToolCallIndices a) deltas with
          | Some (calls1, indices1) =>
              Some ({| sseData := sse; isToolCallChunk := true;
                       isFinal := bool_decide (is_Some usage1) |},
                    {| state :=
                         {| responseId := ch_id chunk; model := ch_model chunk;
                            text := text1; toolCalls := calls1;
                            rawToolCallEvents := rawToolCallEvents s ++ [chunk];
                            usage := usage1;
                            stopReason := if truthy (cc_finish_reason choice)
                                          then cc_finish_reason choice
                                          else stopReason s;
                            timing := timing1 |};
                       currentToolCallIndices := indices1 |})
          | None => None
          end
      | None =>
          Some ({| sseData := sse; isToolCallChunk := false;
                   isFinal := bool_decide (is_Some usage1) |},
                {| state :=
                     {| responseId := ch_id chunk; model := ch_model chunk;
                        text := text1; toolCalls := toolCalls s;
                        rawToolCallEvents := rawToolCallEvents s;
                        usage := usage1;
                        stopReason := if truthy (cc_finish_reason choice)
                                      then cc_finish_reason choice
                                      else stopReason s;
                        timing := timing1 |};
                   currentToolCallIndices := currentToolCallIndices a |})
      end
  end.

Definition processChunk (p : Provider) : Z -> Chunk -> t -> option (ChunkProcessingResult * t) :=
  match p with
  | minimax => processChunkMinimax
  | mistral => processChunkMistral
  end.

(** [toProviderResponse]; the two adapters have the same text. [now] is
    [Date.now()]. *)
Definition toProviderResponse (p : Provider) (now : Z) (a : t) : Response :=
  let s := state a in
  let toolCalls :=
    if (0 <? length (toolCalls s))%nat then
      Some (map (fun tc =>
                   {| tc_id := atc_id tc;
                      tc_type := FunctionType;
                      tc_function := {| fc_arguments := atc_arguments tc;
                                        fc_name := atc_name tc |} |})
                (toolCalls s))
    else None in
  {| resp_id := responseId s;
     resp_object := "chat.completion";
     resp_created := (now / 1000)%Z;
     resp_model := model s;
     resp_choices :=
       [{| choice_index := Some 0%Z;
           choice_logprobs := None;
           choice_message :=
             {| rm_role := RoleAssistant;
                rm_content := if truthy (Some (text s)) then Some (text s) else None;
                rm_function_call := None;
                rm_tool_calls := toolCalls |};
           choice_finish_reason := default "stop" (stopReason s) |}];
     resp_usage :=
       Some {| completion_tokens := default 0%Z (outputTokens <$> usage s);
               prompt_tokens := default 0%Z (inputTokens <$> usage s);
               total_tokens := (default 0 (inputTokens <$> usage s)
                                + default 0 (outputTokens <$> usage s))%Z |} |}.

End StreamAdapter.

(** ** The accumulation of tool-call deltas, in the words of the
    specification *)

Module StreamSpec.
Import StreamAdapter.

(** The gateway's loop over a stream: the chunks in arrival order, each with
    the clock reading at its arrival; a throw ends the loop. *)
Fixpoint feed (p : Provider) (inputs : list (Z * Chunk)) (a : StreamAdapter.t) :
    option StreamAdapter.t :=
  match inputs with
  | [] => Some a
  | (now, chunk) :: rest =>
      match processChunk p now chunk a with
      | Some (_, a1) => feed p rest a1
      | None => None
      end
  end.

(** The tool-call fragments a chunk carries (those of its first choice). *)
Definition chunkDeltas (chunk : Chunk) : list ToolCallDelta :=
  match ch_choices chunk with
  | choice :: _ => default [] (d_tool_calls (cc_delta choice))
  | [] => []
  end.

Definition streamDeltas (inputs : list (Z * Chunk)) : list ToolCallDelta :=
  concat (map (fun input => chunkDeltas (snd input)) inputs).

(** The provider-given indices, in the order of their first occurrence. *)
Definition firstSeen (deltas : list ToolCallDelta) : list Z :=
  fold_left (fun seen d =>
               if bool_decide (tcd_index d ∈ seen) then seen else seen ++ [tcd_index d])
            deltas [].

Definition ofIndex (index : Z) (deltas : list ToolCallDelta) : list ToolCallDelta :=
  filter (fun d => tcd_index d = index) deltas.

(** Overwrite-if-present. *)
Definition overwrite (current : string) (incoming : option string) : string :=
  if truthy incoming then default "" incoming else current.

(** Append, in arrival order. *)
Definition concatenated (fragments : list (option string)) : string :=
  foldr (fun fragment rest => default "" fragment +:+ rest) "" fragments.

(** What the slot of [index] holds once [deltas] have arrived. *)
Definition accumulated (deltas : list ToolCallDelta) (index : Z) : AccumulatedToolCall :=
  {| atc_id := fold_left overwrite (map tcd_id (ofIndex index deltas)) "";
     atc_name := fold_left overwrite (map deltaName (ofIndex index deltas)) "";
     atc_arguments := concatenated (map deltaArguments (ofIndex index deltas)) |}.

(** The accumulator agrees with the deltas that have arrived. *)
Definition tracks (deltas : list ToolCallDelta) (calls : list AccumulatedToolCall)
    (indices : gmap Z nat) : Prop :=
  calls = map (accumulated deltas) (firstSeen deltas)
  /\ forall index slot, indices !! index = Some slot <-> firstSeen deltas !! slot = Some index.

(** Every index the adapter has seen points into the array of tool calls. *)
Definition inRange (calls : list AccumulatedToolCall) (indices : gmap Z nat) : Prop :=
  forall index slot, indices !! index = Some slot -> slot < length calls.

(** The first choice of the chunk has a finish reason. *)
Definition carriesFinishReason (input : Z * Chunk) : bool :=
  match ch_choices (snd input) with
  | choice :: _ => truthy (cc_finish_reason choice)
  | [] => false
  end.

(** The finish reason the stream leaves: that of the last chunk that
    carries one, the one held before if none does. *)
Definition lastFinishReason (inputs : list (Z * Chunk)) (current : option string) :
    option string :=
  fold_left (fun reason input =>
               if carriesFinishReason input
               then head (ch_choices (snd input)) ≫= cc_finish_reason
               else reason)
            inputs current.

End StreamSpec.

(** ** Concrete inputs used by the examples of Part II *)

Module Examples.

Definition emptyDelta : Delta :=
  {| d_role := None; d_content := None; d_tool_calls := None |}.

(** A chunk whose only choice carries a finish reason. *)
Definition finishChunk (reason : string) : Chunk :=
  {| ch_id := "cmpl-1"; ch_created := 0; ch_model := "m";
     ch_choices :=
       [{| cc_index := 0; cc_delta := emptyDelta; cc_finish_reason := Some reason |}];
     ch_usage := None |}.

(** A chunk whose only choice carries a role and a text. *)
Definition textChunk (role content : option string) : Chunk :=
  {| ch_id := "cmpl-1"; ch_created := 0; ch_model := "m";
     ch_choices :=
       [{| cc_index := 0;
           cc_delta := {| d_role := role; d_content := content; d_tool_calls := None |};
           cc_finish_reason := None |}];
     ch_usage := None |}.

(** A chunk whose only choice carries one fragment of a tool call. *)
Definition fragmentChunk (index : Z) (id name arguments : option string) : Chunk :=
  {| ch_id := "cmpl-1"; ch_created := 0; ch_model := "m";
     ch_choices :=
       [{| cc_index := 0;
           cc_delta :=
             {| d_role := None; d_content := None;
                d_tool_calls :=
                  Some [{| tcd_index := index; tcd_id := id;
                           tcd_function :=
                             Some {| tdf_name := name; tdf_arguments := arguments |} |}] |};
           cc_finish_reason := None |}];
     ch_usage := None |}.

(** A chunk with no choice and no usage. *)
Definition emptyChunk : Chunk :=
  {| ch_id := "cmpl-1"; ch_created := 0; ch_model := "m";
     ch_choices := []; ch_usage := None |}.

(** The terminal chunk that carries only the usage. *)
Definition usageChunk : Chunk :=
  {| ch_id := "cmpl-1"; ch_created := 0; ch_model := "m";
     ch_choices := [];
     ch_usage := Some {| cu_prompt_tokens := Some 7%Z; cu_completion_tokens := Some 3%Z |} |}.

(** A request whose tool result answers no tool call of an assistant. *)
Definition orphanToolMessage : ToolMessage :=
  {| tm_content := ContentText "42"; tm_tool_call_id := "call_9"; tm_name := None |}.

Definition orphanRequest : Request :=
  {| req_model := "m";
     req_messages :=
       [MUser {| pm_content := ContentText "hi"; pm_name := None |};
        MTool orphanToolMessage];
     req_tools := None; req_stream := None; req_rest := [] |}.

(** A request whose tool result is the empty array. *)
Definition emptyArrayToolMessage : ToolMessage :=
  {| tm_content := ContentText "[]"; tm_tool_call_id := "call_1"; tm_name := None |}.

Definition emptyArrayRequest : Request :=
  {| req_model := "m";
     req_messages := [MTool emptyArrayToolMessage];
     req_tools := None; req_stream := None; req_rest := [] |}.

(** A request with four tool results: a text that is not JSON, the empty
    array, an array of two numbers, and a content that is a list of
    parts. *)
Definition plainToolMessage : ToolMessage :=
  {| tm_content := ContentText "done"; tm_tool_call_id := "call_0"; tm_name := None |}.

Definition pairToolMessage : ToolMessage :=
  {| tm_content := ContentText "[1,2]"; tm_tool_call_id := "call_3"; tm_name := None |}.

Definition partsToolMessage : ToolMessage :=
  {| tm_content := ContentParts [TextPart "ok"]; tm_tool_call_id := "call_4";
     tm_name := None |}.

Definition compressionRequest : Request :=
  {| req_model := "m";
     req_messages :=
       [MTool plainToolMessage; MTool emptyArrayToolMessage; MTool pairToolMessage;
        MTool partsToolMessage];
     req_tools := None; req_stream := None; req_rest := [] |}.

(** Stand-ins for what the compression takes from outside: one token for
    each character, and an encoder that knows the TOON form of the empty
    array, which is longer than its JSON form and which it reports as not
    compressed, and that of the array of 1 and 2, and throws on everything
    else. *)
Definition sampleExternals : Toon.Externals json :=
  {| Toon.tokenizerEncode :=
       fun _ s => map (fun c => Z.of_nat (nat_of_ascii c)) (list_ascii_of_string s);
     Toon.toonEncodeBudgeted :=
       fun v _ _ => match v with
                    | JArr [] => Some ("[0]:", false)
                    | JArr [JNum 1%Z; JNum 2%Z] => Some ("[2]: 1,2", true)
                    | _ => None
                    end;
     Toon.toonEncode :=
       fun v => match v with
                | JArr [] => Some "[0]:"
                | JArr [JNum 1%Z; JNum 2%Z] => Some "[2]: 1,2"
                | _ => None
                end;
     Toon.countTokens := fun s => Some (Z.of_nat (String.length s));
     Toon.unwrapToolContent := fun s => Some s;
     Toon.pricePerMillionInput := fun _ => None |}.

(** The same, with a token counter that throws. *)
Definition uncountedExternals : Toon.Externals json :=
  {| Toon.tokenizerEncode := Toon.tokenizerEncode sampleExternals;
     Toon.toonEncodeBudgeted := Toon.toonEncodeBudgeted sampleExternals;
     Toon.toonEncode := Toon.toonEncode sampleExternals;
     Toon.countTokens := fun _ => None;
     Toon.unwrapToolContent := Toon.unwrapToolContent sampleExternals;
     Toon.pricePerMillionInput := Toon.pricePerMillionInput sampleExternals |}.

End Examples.

(** ** The MiniMax client: reading a stream of server-sent events *)

Module MinimaxClient.
Local Open Scope char_scope.
Local Open Scope nat_scope.

(** The characters [String.prototype.trim] removes, among the code units
    below 256: tab, line feed, vertical tab, form feed, carriage return,
    space and no-break space. *)
Definition is_space (c : ascii) : bool :=
  let n := nat_of_ascii c in
  ((9 <=? n) && (n <=? 13)) || (n =? 32) || (n =? 160).

Fixpoint trimStart (cs : list ascii) : list ascii :=
  match cs with
  | c :: rest => if is_space c then trimStart rest else cs
  | [] => []
  end.

Definition trim (cs : list ascii) : list ascii :=
  rev (trimStart (rev (trimStart cs))).

(** [buffer.split("\n")]: the pieces between the line feeds, one more than
    there are line feeds. *)
Fixpoint splitLines (cs : list ascii) : list (list ascii) :=
  match cs with
  | [] => [[]]
  | c :: rest =>
      if Ascii.eqb c newline then [] :: splitLines rest
      else match splitLines rest with
           | line :: lines => (c :: line) :: lines
           | [] => [[c]]
           end
  end.

Definition dataPrefix : list ascii := list_ascii_of_string "data: ".

Definition doneLine : list ascii := list_ascii_of_string "data: [DONE]".

Definition chars_eqb (xs ys : list ascii) : bool :=
  bool_decide (xs = ys).

Fixpoint is_prefix (p s : list ascii) : bool :=
  match p, s with
  | [], _ => true
  | a :: p', b :: s' => Ascii.eqb a b && is_prefix p' s'
  | _ :: _, [] => false
  end.

(** [trimmed.startsWith("data: ")] *)
Definition startsWithData (trimmed : list ascii) : bool :=
  is_prefix dataPrefix trimmed.

Section Reading.
Context {Value : Type} (JSON_parse : string -> option Value).

(** [JSON.parse(trimmed.substring(6))] *)
Definition payload (trimmed : list ascii) : option Value :=
  JSON_parse (string_of_list_ascii (skipn 6 trimmed)).

(** The body of [for (const line of lines)]: what a complete line yields.
    A line whose payload does not parse is logged and skipped. *)
Definition yieldOfLine (line : list ascii) : option Value :=
  let trimmed := trim line in
  if chars_eqb trimmed [] || chars_eqb trimmed doneLine then None
  else if startsWithData trimmed then payload trimmed
  else None.

(** What is yielded for the text left in the buffer when the body ends. *)
Definition yieldOfRest (buffer : list ascii) : option Value :=
  if chars_eqb (trim buffer) [] then None
  else
    let trimmed := trim buffer in
    if startsWithData trimmed && negb (chars_eqb trimmed doneLine)
    then payload trimmed
    else None.

(** [lines.pop() || ""]: the lines without the last one, and the last one. *)
Fixpoint popLast (lines : list (list ascii)) : list (list ascii) * list ascii :=
  match lines with
  | [] => ([], [])
  | [line] => ([], line)
  | line :: rest => let (complete, buffer) := popLast rest in (line :: complete, buffer)
  end.

(** The [while (true)] loop: each read appends the decoded piece to the
    buffer, yields for every complete line, and keeps the last, incomplete
    one ([lines.pop() || ""]) as the new buffer. *)
Fixpoint readLoop (pieces : list (list ascii)) (buffer : list ascii) :
    list Value * list ascii :=
  match pieces with
  | [] => ([], buffer)
  | piece :: rest =>
      let (lines, buffer1) := popLast (splitLines (buffer ++ piece)) in
      let (later, buffer2) := readLoop rest buffer1 in
      (omap yieldOfLine lines ++ later, buffer2)
  end.

(** [parseSSEStream]: the chunks yielded over the whole body, whose decoded
    pieces arrive in [body]; a response without a body throws. *)
Definition parseSSEStream (body : option (list string)) : option (list Value) :=
  match body with
  | None => None
  | Some pieces =>
      let (yielded, buffer) := readLoop (map list_ascii_of_string pieces) [] in
      Some (yielded ++ match yieldOfRest buffer with
                       | Some chunk => [chunk]
                       | None => []
                       end)
  end.

End Reading.

End MinimaxClient.

(** ** Stream adapters: the frames they format *)

Module StreamFormat.
Import StreamAdapter.

Definition lineFeeds : string := String newline (String newline EmptyString).

(** [`data: ${JSON.stringify(chunk)}\n\n`] *)
Definition dataFrame (chunk : json) : string :=
  "data: " +:+ JSON_stringify chunk +:+ lineFeeds.

(** The chunk literal the three formatters build, its keys in the order of
    the source. *)
Definition chunkLiteral (id : string) (created : Z) (model : string)
    (delta finish_reason : json) : json :=
  JObj [("id", JStr id);
        ("object", JStr "chat.completion.chunk");
        ("created", JNum created);
        ("model", JStr model);
        ("choices",
         JArr [JObj [("index", JNum 0);
                     ("delta", delta);
                     ("finish_reason", finish_reason)]])].

Definition getSSEHeaders (p : Provider) : list (string * string) :=
  match p with
  | minimax =>
      [("Content-Type", "text/event-stream"); ("Cache-Control", "no-cache");
       ("Connection", "keep-alive"); ("X-Accel-Buffering", "no")]
  | mistral =>
      [("Content-Type", "text/event-stream"); ("Cache-Control", "no-cache");
       ("Connection", "keep-alive")]
  end.

Definition textDeltaChunk (now : Z) (text : string) (a : StreamAdapter.t) : json :=
  chunkLiteral (responseId (state a)) (now / 1000) (model (state a))
    (JObj [("content", JStr text)]) JNull.

Definition formatTextDeltaSSE (p : Provider) (now : Z) (text : string)
    (a : StreamAdapter.t) : string :=
  dataFrame (textDeltaChunk now text a).

Definition getRawToolCallEvents (a : StreamAdapter.t) : list SSEFrame :=
  map DataFrame (rawToolCallEvents (state a)).

(** [this.state.responseId || `chatcmpl-${Date.now()}`], with the prefix of
    the provider. *)
Definition completeTextId (p : Provider) (now : Z) (a : StreamAdapter.t) : string :=
  if truthy (Some (responseId (state a))) then responseId (state a)
  else match p with
       | minimax => "chatcmpl-"
       | mistral => "mistral-"
       end +:+ string_of_list_ascii (number_chars now).

(** The clock is read for the id, [idNow], and once more for [created]. *)
Definition completeTextChunk (p : Provider) (idNow now : Z) (text : string)
    (a : StreamAdapter.t) : json :=
  chunkLiteral (completeTextId p idNow a) (now / 1000) (model (state a))
    (JObj [("role", JStr "assistant"); ("content", JStr text)]) JNull.

Definition formatCompleteTextSSE (p : Provider) (idNow now : Z) (text : string)
    (a : StreamAdapter.t) : list string :=
  [dataFrame (completeTextChunk p idNow now text a)].

Definition endChunk (now : Z) (a : StreamAdapter.t) : json :=
  chunkLiteral (responseId (state a)) (now / 1000) (model (state a))
    (JObj []) (JStr (default "stop" (stopReason (state a)))).

(** [`data: ${JSON.stringify(finalChunk)}\n\ndata: [DONE]\n\n`] *)
Definition formatEndSSE (p : Provider) (now : Z) (a : StreamAdapter.t) : string :=
  "data: " +:+ JSON_stringify (endChunk now a) +:+ lineFeeds
  +:+ "data: [DONE]" +:+ lineFeeds.

End StreamFormat.

(** ** The body of an event stream, in the words of its format *)

Module ClientSpec.
Import MinimaxClient.

(** The text holds no line feed. *)
Definition oneLine (cs : list ascii) : bool :=
  forallb (fun c => negb (Ascii.eqb c newline)) cs.

(** The whole text of a body that arrives in pieces. *)
Definition bodyText (pieces : list string) : list ascii :=
  concat (map list_ascii_of_string pieces).

(** No character of the text is a control character. *)
Definition printable (cs : list ascii) : bool :=
  forallb (fun c => negb (is_control c)) cs.

(** A call of one of the three formatters of a stream adapter. *)
Inductive FormatCall : Type :=
| TextDelta (p : Provider) (now : Z) (text : string) (a : StreamAdapter.t)
| CompleteText (p : Provider) (idNow now : Z) (text : string) (a : StreamAdapter.t)
| End (p : Provider) (now : Z) (a : StreamAdapter.t).

(** The frames the call returns. *)
Definition framesOf (call : FormatCall) : list string :=
  match call with
  | TextDelta p now text a => [StreamFormat.formatTextDeltaSSE p now text a]
  | CompleteText p idNow now text a =>
      StreamFormat.formatCompleteTextSSE p idNow now text a
  | End p now a => [StreamFormat.formatEndSSE p now a]
  end.

(** The chunk the call formats. *)
Definition chunkOf (call : FormatCall) : json :=
  match call with
  | TextDelta p now text a => StreamFormat.textDeltaChunk now text a
  | CompleteText p idNow now text a => StreamFormat.completeTextChunk p idNow now text a
  | End p now a => StreamFormat.endChunk now a
  end.

(** What [JSON.parse] makes of the text of a chunk. *)
Definition readBack {Value : Type} (JSON_parse : string -> option Value) (chunk : json) :
    option Value :=
  JSON_parse (JSON_stringify chunk).

End ClientSpec.

(** ** What a stream leaves in the accumulator, in the words of its chunks *)

Module StreamSummary.
Import StreamAdapter StreamSpec.

(** The gateway's loop again, keeping the result of every chunk. *)
Fixpoint feedResults (p : Provider) (inputs : list (Z * Chunk)) (a : StreamAdapter.t) :
    option (list ChunkProcessingResult * StreamAdapter.t) :=
  match inputs with
  | [] => Some ([], a)
  | (now, chunk) :: rest =>
      match processChunk p now chunk a with
      | Some (r, a1) =>
          match feedResults p rest a1 with
          | Some (rs, a2) => Some (r :: rs, a2)
          | None => None
          end
      | None => None
      end
  end.

(** The text a chunk carries: the content of its first choice. *)
Definition contentOf (chunk : Chunk) : string :=
  match ch_choices chunk with
  | choice :: _ =>
      if truthy (d_content (cc_delta choice))
      then default "" (d_content (cc_delta choice))
      else ""
  | [] => ""
  end.

Definition streamText (inputs : list (Z * Chunk)) : string :=
  foldr (fun input rest => contentOf (snd input) +:+ rest) "" inputs.

(** The first choice of the chunk has a [tool_calls] array. *)
Definition carriesToolCalls (chunk : Chunk) : bool :=
  match ch_choices chunk with
  | choice :: _ => bool_decide (is_Some (d_tool_calls (cc_delta choice)))
  | [] => false
  end.

Definition toolCallChunks (inputs : list (Z * Chunk)) : list Chunk :=
  filter (fun chunk => carriesToolCalls chunk = true) (map snd inputs).

(** The usage the adapter of provider [p] takes from a chunk: MiniMax reads
    it only on a chunk that has a choice. *)
Definition usageRead (p : Provider) (chunk : Chunk) : option UsageView :=
  match p, ch_choices chunk with
  | minimax, [] => None
  | _, _ => usageView <$> ch_usage chunk
  end.

Definition lastUsage (p : Provider) (inputs : list (Z * Chunk))
    (current : option UsageView) : option UsageView :=
  fold_left (fun held input =>
               match usageRead p (snd input) with
               | Some u => Some u
               | None => held
               end)
            inputs current.

End StreamSummary.

(** ** The read accessors of the response adapters *)

Module ResponseAccessors.
Import ResponseAdapter.

(** The [arguments] of a [CommonToolCall], as the accessors fill them:
    what [JSON.parse] made of the argument text, or the empty object when
    it threw. *)
Inductive CallArguments (Value : Type) : Type :=
| ParsedArguments (value : Value)
| EmptyArguments.

Arguments ParsedArguments {Value} value.
Arguments EmptyArguments {Value}.

(** [CommonToolCall] of [@/types], as the accessors build it. *)
Record CommonToolCall (Value : Type) : Type := {
  call_id : string;
  call_name : string;
  call_arguments : CallArguments Value
}.

Arguments Build_CommonToolCall {Value} _ _ _.
Arguments call_id {Value} _.
Arguments call_name {Value} _.
Arguments call_arguments {Value} _.

Definition getId (a : t) : string := resp_id (response a).

Definition getModel (a : t) : string := resp_model (response a).

(** MiniMax reads the content through [?? ""], Mistral through [|| ""]. *)
Definition getText (p : Provider) (a : t) : string :=
  match resp_choices (response a) with
  | [] => ""
  | choice :: _ =>
      let content := rm_content (choice_message choice) in
      match p with
      | minimax => default "" content
      | mistral => if truthy content then default "" content else ""
      end
  end.

Section Reading.
Context {Value : Type} (JSON_parse : string -> option Value).

(** [try { args = JSON.parse(...) } catch { args = {} }]. *)
Definition parseArguments (arguments : string) : CallArguments Value :=
  match JSON_parse arguments with
  | Some value => ParsedArguments value
  | None => EmptyArguments
  end.

(** MiniMax tests [toolCall.type === "function" && toolCall.function] first;
    the type has this one variant and the function object is always
    present, so the test holds and the branch naming the call "unknown" is
    not reached. Mistral reads the function without a test. *)
Definition commonToolCall (p : Provider) (toolCall : ToolCall) : CommonToolCall Value :=
  match p with
  | minimax =>
      match tc_type toolCall with
      | FunctionType =>
          {| call_id := tc_id toolCall;
             call_name := fc_name (tc_function toolCall);
             call_arguments := parseArguments (fc_arguments (tc_function toolCall)) |}
      end
  | mistral =>
      {| call_id := tc_id toolCall;
         call_name := fc_name (tc_function toolCall);
         call_arguments := parseArguments (fc_arguments (tc_function toolCall)) |}
  end.

Definition getToolCalls (p : Provider) (a : t) : list (CommonToolCall Value) :=
  match resp_choices (response a) with
  | [] => []
  | choice :: _ =>
      match rm_tool_calls (choice_message choice) with
      | None => []
      | Some toolCalls => map (commonToolCall p) toolCalls
      end
  end.

End Reading.

(** [(choice?.message.tool_calls?.length ?? 0) > 0]. *)
Definition hasToolCalls (a : t) : bool :=
  let count :=
    match resp_choices (response a) with
    | [] => None
    | choice :: _ => length <$> rm_tool_calls (choice_message choice)
    end in
  (0 <? default 0 count)%nat.

Definition getUsage (a : t) : UsageView :=
  {| inputTokens := default 0%Z (prompt_tokens <$> resp_usage (response a));
     outputTokens := default 0%Z (completion_tokens <$> resp_usage (response a)) |}.

Definition getOriginalResponse (a : t) : Response := response a.

End ResponseAccessors.

(** ** Sequences of modifying calls on a request adapter *)

Module RequestMutations.
Import RequestAdapter.

(** The three modifying calls that buffer a change. *)
Inductive Mutation : Type :=
| SetModel (model : string)
| UpdateToolResult (toolCallId newContent : string)
| ApplyToolResultUpdates (updates : gmap string string).

Definition mutate (m : Mutation) (a : t) : t :=
  match m with
  | SetModel model => snd (setModel model a)
  | UpdateToolResult toolCallId newContent => snd (updateToolResult toolCallId newContent a)
  | ApplyToolResultUpdates updates => snd (applyToolResultUpdates updates a)
  end.

Definition mutateAll (ms : list Mutation) (a : t) : t :=
  fold_left (fun a m => mutate m a) ms a.

(** The model a call sets, if it sets one. *)
Definition modelSet (m : Mutation) : option string :=
  match m with
  | SetModel model => Some model
  | _ => None
  end.

(** The tool-call id a message answers, if it is a tool message. *)
Definition answers (message : Message) : option string :=
  match message with
  | MTool tm => Some (tm_tool_call_id tm)
  | _ => None
  end.

End RequestMutations.

(** ** What the compression leaves of a conversation, and what it counts *)

Module ToonSummary.
Import RequestAdapter Toon RequestSpec.

(** The lengths of the contents of the tool messages, added up. *)
Definition contentLength (messages : list Message) : nat :=
  foldr (fun tm total => String.length (originalContent (tm_content tm)) + total) 0
    (toolMessages messages).

Definition total (counts : list Z) : Z := foldr Z.add 0%Z counts.

Section Summary.
Context {Value : Type} (JSON_parse : string -> option Value).

(** The adapter [applyToonCompression] leaves behind. *)
Definition applyToonCompression (p : Provider) (ext : Externals Value) (model : string)
    (a : RequestAdapter.t) : RequestAdapter.t :=
  match p with
  | minimax => snd (applyToonCompressionMinimax JSON_parse ext model a)
  | mistral => snd (applyToonCompressionMistral JSON_parse ext model a)
  end.

(** MiniMax: the encoding that takes the place of the content of a tool
    message, when the content parses and the encoder reports that it
    compressed it. *)
Definition minimaxEncoding (ext : Externals Value) (model : string) (tm : ToolMessage) :
    option string :=
  match JSON_parse (originalContent (tm_content tm)) with
  | Some parsed =>
      match toonEncodeBudgeted ext parsed (tokenizerEncode ext model) 4000%Z with
      | Some (compressed, true) => Some compressed
      | Some (_, false) => None
      | None => None
      end
  | None => None
  end.

(** Mistral: the encoding that takes the place of a string content, with
    the token counts before and after, when nothing on the way throws. *)
Definition mistralEncoding (ext : Externals Value) (tm : ToolMessage) :
    option (string * (Z * Z)) :=
  match tm_content tm with
  | ContentText content =>
      match unwrapToolContent ext content with
      | Some unwrapped =>
          match JSON_parse unwrapped with
          | Some parsed =>
              match toonEncode ext parsed with
              | Some compressed =>
                  match countTokens ext unwrapped, countTokens ext compressed with
                  | Some before, Some after => Some (compressed, (before, after))
                  | _, _ => None
                  end
              | None => None
              end
          | None => None
          end
      | None => None
      end
  | ContentParts _ => None
  end.

Definition encoding (p : Provider) (ext : Externals Value) (model : string)
    (tm : ToolMessage) : option string :=
  match p with
  | minimax => minimaxEncoding ext model tm
  | mistral => fst <$> mistralEncoding ext tm
  end.

(** The message the callback of either [convertToolResultsToToon] returns. *)
Definition compressedMessage (p : Provider) (ext : Externals Value) (model : string)
    (message : Message) : Message :=
  match message with
  | MTool tm =>
      match encoding p ext model tm with
      | Some compressed => MTool (withContent tm compressed)
      | None => message
      end
  | _ => message
  end.


(** The tool messages MiniMax encodes, in order. *)
Definition minimaxEncoded (ext : Externals Value) (model : string)
    (messages : list Message) : list string :=
  omap (minimaxEncoding ext model) (toolMessages messages).

End Summary.

End ToonSummary.

(** ** Concrete inputs for the further examples of Part II *)

Module MoreExamples.
Import StreamAdapter StreamFormat ClientSpec.

(** Two calls of the formatters of a fresh MiniMax stream adapter. *)
Definition sampleCalls : list FormatCall :=
  [TextDelta minimax 1000 "hi" (new 0); End minimax 2000 (new 0)].

(** The text of a list of frames. *)
Definition framesText (frames : list string) : string :=
  foldr String.append "" frames.

(** A text cut in two after its first [n] characters. *)
Definition cutAt (n : nat) (text : string) : list string :=
  [String.substring 0 n text; String.substring n (String.length text - n) text].

(** The frames of [sampleCalls], as a body that arrives in two pieces, cut
    in the middle of the first frame. *)
Definition samplePieces : list string :=
  cutAt 10 (framesText (concat (map framesOf sampleCalls))).

End MoreExamples.

(** * Part II: properties *)

(** ** Stream adapters *)

Section StreamFacts.
Import StreamAdapter StreamSpec Examples.

Lemma accumulateDelta_inRange calls indices d :
  inRange calls indices ->
  exists calls1 indices1,
    accumulateDelta (calls, indices) d = Some (calls1, indices1)
    /\ inRange calls1 indices1.
Proof.
  intros Hin. unfold accumulateDelta.
  destruct (indices !! tcd_index d) as [slot|] eqn:Hidx.
  - cbn beta iota. rewrite Hidx. pose proof (Hin _ _ Hidx) as Hlt.
    destruct (lookup_lt_is_Some_2 calls slot Hlt) as [tc Htc]. rewrite Htc.
    eexists _, _. split; [reflexivity|].
    intros i s Hi. rewrite length_insert. eapply Hin, Hi.
  - cbn beta iota. rewrite lookup_insert_eq.
    rewrite lookup_app_r, Nat.sub_diag by lia. cbn [lookup list_lookup].
    eexists _, _. split; [reflexivity|].
    intros i s Hi. rewrite length_insert, length_app. cbn [length].
    destruct (decide (tcd_index d = i)) as [Heq|Hne].
    + subst i. rewrite lookup_insert_eq in Hi. injection Hi as <-. lia.
    + rewrite lookup_insert_ne in Hi by exact Hne. apply Hin in Hi. lia.
Qed.

Lemma accumulateDeltas_inRange deltas calls indices :
  inRange calls indices ->
  exists calls1 indices1,
    accumulateDeltas (calls, indices) deltas = Some (calls1, indices1)
    /\ inRange calls1 indices1.
Proof.
  revert calls indices. induction deltas as [|d deltas IH]; intros calls indices Hin.
  - eexists _, _. split; [reflexivity|exact Hin].
  - cbn [accumulateDeltas].
    destruct (accumulateDelta_inRange calls indices d Hin) as (c1 & i1 & -> & Hin1).
    apply IH, Hin1.
Qed.

(** What a chunk does to the accumulator, whichever the provider. *)
Lemma processChunk_step p now chunk a :
  inRange (toolCalls (state a)) (currentToolCallIndices a) ->
  exists r a1 calls1 indices1,
    processChunk p now chunk a = Some (r, a1)
    /\ accumulateDeltas (toolCalls (state a), currentToolCallIndices a) (chunkDeltas chunk)
       = Some (calls1, indices1)
    /\ toolCalls (state a1) = calls1
    /\ currentToolCallIndices a1 = indices1
    /\ inRange calls1 indices1
    /\ text (state a1) =
       match ch_choices chunk with
       | choice :: _ => appendContent (text (state a)) (d_content (cc_delta choice))
       | [] => text (state a)
       end
    /\ stopReason (state a1) =
       (if carriesFinishReason (now, chunk)
        then head (ch_choices chunk) ≫= cc_finish_reason
        else stopReason (state a)).
Proof.
  intros Hin. unfold chunkDeltas, carriesFinishReason. cbn [snd].
  destruct p; cbn [processChunk]; unfold processChunkMinimax, processChunkMistral;
    (destruct (ch_choices chunk) as [|choice rest];
     [ eexists _, _, _, _; repeat split; try reflexivity; exact Hin |]);
    (destruct (d_tool_calls (cc_delta choice)) as [deltas|]; cbn [default];
     [ destruct (accumulateDeltas_inRange deltas _ _ Hin) as (c1 & i1 & Hacc & Hin1);
       rewrite Hacc; eexists _, _, c1, i1; repeat split; try reflexivity; assumption
     | eexists _, _, _, _; repeat split; try reflexivity; exact Hin ]).
Qed.

Lemma string_app_assoc (x y z : string) : (x +:+ y) +:+ z = x +:+ (y +:+ z).
Proof.
  induction x as [|c x IH]; [reflexivity|].
  change (String c ((x +:+ y) +:+ z) = String c (x +:+ (y +:+ z))).
  rewrite IH. reflexivity.
Qed.

Lemma string_app_nil_r (x : string) : x +:+ "" = x.
Proof.
  induction x as [|c x IH]; [reflexivity|].
  change (String c (x +:+ "") = String c x).
  rewrite IH. reflexivity.
Qed.

Lemma appendContent_extends (s : string) (content : option string) :
  exists suffix, appendContent s content = s +:+ suffix.
Proof.
  unfold appendContent. destruct (truthy content).
  - eexists. reflexivity.
  - exists "". symmetry. apply string_app_nil_r.
Qed.

Lemma lastFinishReason_kept inputs current :
  is_Some current -> is_Some (lastFinishReason inputs current).
Proof.
  revert current. induction inputs as [|[now chunk] inputs IH]; intros current Hc;
    [exact Hc|].
  cbn [lastFinishReason fold_left]. apply IH.
  unfold carriesFinishReason. cbn [snd].
  destruct (ch_choices chunk) as [|choice rest]; [exact Hc|].
  destruct (truthy (cc_finish_reason choice)) eqn:E; [|exact Hc].
  cbn. destruct (cc_finish_reason choice); [eauto|discriminate].
Qed.

Lemma lastFinishReason_none inputs current :
  existsb carriesFinishReason inputs = false -> lastFinishReason inputs current = current.
Proof.
  revert current. induction inputs as [|input inputs IH]; intros current H;
    [reflexivity|].
  cbn [existsb] in H. apply orb_false_elim in H as [H1 H2].
  cbn [lastFinishReason fold_left]. rewrite H1. apply IH, H2.
Qed.

(** A stream never throws once the indices are in range, and leaves them in
    range; the text grows at its end and the finish reason is that of the
    last chunk that carries one. *)
Lemma feed_step p inputs a :
  inRange (toolCalls (state a)) (currentToolCallIndices a) ->
  exists a1,
    feed p inputs a = Some a1
    /\ inRange (toolCalls (state a1)) (currentToolCallIndices a1)
    /\ (exists suffix, text (state a1) = text (state a) +:+ suffix)
    /\ stopReason (state a1) = lastFinishReason inputs (stopReason (state a)).
Proof.
  revert a. induction inputs as [|[now chunk] inputs IH]; intros a Hin.
  - exists a. repeat split; [exact Hin|]. exists "". symmetry. apply string_app_nil_r.
  - destruct (processChunk_step p now chunk a Hin)
      as (r & a1 & c1 & i1 & Hstep & _ & <- & <- & Hin1 & Htext & Hstop).
    cbn [feed]. rewrite Hstep.
    destruct (IH a1 Hin1) as (a2 & Hfeed & Hin2 & [suffix2 Htext2] & Hstop2).
    exists a2. repeat split; [exact Hfeed|exact Hin2| |].
    + assert (exists suffix1, text (state a1) = text (state a) +:+ suffix1) as [suffix1 E].
      { rewrite Htext. destruct (ch_choices chunk).
        - exists "". symmetry. apply string_app_nil_r.
        - apply appendContent_extends. }
      exists (suffix1 +:+ suffix2). rewrite Htext2, E. apply string_app_assoc.
    + rewrite Hstop2, Hstop. reflexivity.
Qed.

Lemma new_inRange now : inRange (toolCalls (state (new now))) (currentToolCallIndices (new now)).
Proof. intros index slot H. cbn in H. rewrite lookup_empty in H. discriminate. Qed.

(** C6 (as amended). Over any stream fed to a fresh stream adapter of either
    provider, and at any point of it: the text accumulated later extends the
    text accumulated before; the finish reason held later is that of the last
    later chunk that carries one, and the one held before when no later
    chunk carries one; so a finish reason, once set, is never cleared. *)
Theorem stream_text_grows_and_finish_reason_is_kept
    (p : Provider) (start : Z) (before later : list (Z * Chunk)) :
  exists a1 a2,
    feed p before (new start) = Some a1
    /\ feed p later a1 = Some a2
    /\ (exists suffix, text (state a2) = text (state a1) +:+ suffix)
    /\ stopReason (state a2) = lastFinishReason later (stopReason (state a1))
    /\ (existsb carriesFinishReason later = true
        \/ stopReason (state a2) = stopReason (state a1))
    /\ (stopReason (state a1) = None \/ is_Some (stopReason (state a2))).
Proof.
  destruct (feed_step p before (new start) (new_inRange start))
    as (a1 & Hfeed1 & Hin1 & _ & _).
  destruct (feed_step p later a1 Hin1) as (a2 & Hfeed2 & _ & Htext & Hstop).
  exists a1, a2. repeat split; try assumption.
  - destruct (existsb carriesFinishReason later) eqn:E; [left; reflexivity|right].
    rewrite Hstop. apply lastFinishReason_none, E.
  - destruct (stopReason (state a1)) as [r|] eqn:E; [right|left; reflexivity].
    rewrite Hstop. apply lastFinishReason_kept. eauto.
Qed.

(** C6, as stated, fails: a finish reason that is set is overwritten by a
    later chunk that carries another one. *)
Lemma finish_reason_is_overwritten :
  exists a1 r a2,
    feed minimax [(1%Z, finishChunk "length")] (new 0) = Some a1
    /\ stopReason (state a1) = Some "length"
    /\ processChunk minimax 2 (finishChunk "stop") a1 = Some (r, a2)
    /\ stopReason (state a2) = Some "stop"
    /\ stopReason (state a2) <> stopReason (state a1).
Proof.
  eexists _, _, _. repeat split; try reflexivity. cbn. discriminate.
Qed.

(** C8 (as amended). A chunk with no choice and no usage emits no
    server-sent-event data, is not a tool-call chunk, and leaves the text,
    the tool calls and the finish reason as they were. For MiniMax the
    result is not final; for Mistral it is final exactly when a usage has
    been accumulated before. *)
Theorem chunk_without_choice_and_usage
    (p : Provider) (now : Z) (chunk : Chunk) (a : StreamAdapter.t) :
  ch_choices chunk = [] -> ch_usage chunk = None ->
  exists r a1,
    processChunk p now chunk a = Some (r, a1)
    /\ sseData r = None
    /\ isToolCallChunk r = false
    /\ isFinal r = match p with
                   | minimax => false
                   | mistral => bool_decide (is_Some (usage (state a)))
                   end
    /\ text (state a1) = text (state a)
    /\ toolCalls (state a1) = toolCalls (state a)
    /\ stopReason (state a1) = stopReason (state a).
Proof.
  intros Hchoices Husage.
  destruct p; cbn [processChunk]; unfold processChunkMinimax, processChunkMistral;
    rewrite Hchoices, ?Husage; eexists _, _; repeat split; reflexivity.
Qed.

Lemma chunk_without_choice_and_usage_witness :
  exists r a1,
    processChunk mistral 5 emptyChunk (new 0) = Some (r, a1)
    /\ sseData r = None
    /\ isToolCallChunk r = false
    /\ isFinal r = bool_decide (is_Some (usage (state (new 0))))
    /\ text (state a1) = text (state (new 0))
    /\ toolCalls (state a1) = toolCalls (state (new 0))
    /\ stopReason (state a1) = stopReason (state (new 0)).
Proof.
  apply (chunk_without_choice_and_usage mistral 5 emptyChunk (new 0)); reflexivity.
Defined.

(** C8, as stated, fails for Mistral: once the usage has arrived, a chunk
    with no choice and no usage is reported as final. *)
Lemma chunk_without_choice_is_final_for_mistral :
  exists a r a1,
    feed mistral [(1%Z, usageChunk)] (new 0) = Some a
    /\ ch_choices emptyChunk = []
    /\ ch_usage emptyChunk = None
    /\ processChunk mistral 2 emptyChunk a = Some (r, a1)
    /\ isFinal r = true.
Proof. eexists _, _, _. repeat split; reflexivity. Qed.

(** The scenario of the specification: an opening chunk with the role, a
    chunk with the text, a closing chunk with the finish reason. *)
Example hello_stream (p : Provider) :
  exists a,
    feed p [(1%Z, textChunk (Some "assistant") (Some ""));
            (2%Z, textChunk None (Some "Hello"));
            (3%Z, finishChunk "stop")] (new 0) = Some a
    /\ text (state a) = "Hello"
    /\ stopReason (state a) = Some "stop".
Proof. destruct p; eexists; repeat split; reflexivity. Qed.

End StreamFacts.

(** ** Accumulation of tool-call deltas *)

Section ToolCallDeltas.
Import StreamAdapter StreamSpec Examples.

Lemma firstSeen_snoc deltas d :
  firstSeen (deltas ++ [d]) =
  if bool_decide (tcd_index d ∈ firstSeen deltas)
  then firstSeen deltas
  else firstSeen deltas ++ [tcd_index d].
Proof. unfold firstSeen. rewrite fold_left_app. reflexivity. Qed.

Lemma firstSeen_NoDup deltas : NoDup (firstSeen deltas).
Proof.
  induction deltas as [|d deltas IH] using rev_ind; [constructor|].
  rewrite firstSeen_snoc. case_bool_decide as Hin; [exact IH|].
  apply NoDup_app. split; [exact IH|]. split.
  - intros x Hx Hx'. apply list_elem_of_singleton in Hx'. subst x. contradiction.
  - apply NoDup_singleton.
Qed.

Lemma firstSeen_elem deltas index :
  index ∈ firstSeen deltas <-> ofIndex index deltas <> [].
Proof.
  unfold ofIndex.
  induction deltas as [|d deltas IH] using rev_ind; [cbn; split; [inversion 1|congruence]|].
  rewrite firstSeen_snoc, filter_app. cbn [filter list_filter].
  case_bool_decide as Hin; case_decide as Heq; subst;
    rewrite ?elem_of_app, ?list_elem_of_singleton, ?app_nil_r, IH; split; intros H.
  - intros E. apply app_eq_nil in E as [_ E]. discriminate.
  - apply IH, Hin.
  - exact H.
  - exact H.
  - intros E. apply app_eq_nil in E as [_ E]. discriminate.
  - right. reflexivity.
  - destruct H as [H|H]; [exact H|congruence].
  - left. exact H.
Qed.

Lemma ofIndex_snoc index deltas d :
  ofIndex index (deltas ++ [d]) =
  ofIndex index deltas ++ (if decide (tcd_index d = index) then [d] else []).
Proof.
  unfold ofIndex. rewrite filter_app. cbn [filter list_filter].
  case_decide; reflexivity.
Qed.

Lemma concatenated_snoc fragments fragment :
  concatenated (fragments ++ [fragment]) = concatenated fragments +:+ default "" fragment.
Proof.
  induction fragments as [|f fragments IH]; cbn [app concatenated foldr].
  - apply string_app_nil_r.
  - unfold concatenated in IH. rewrite IH. symmetry. apply string_app_assoc.
Qed.

Lemma not_truthy_default (o : option string) : truthy o = false -> default "" o = "".
Proof.
  destruct o as [s|]; [|reflexivity]. cbn.
  intros H. apply negb_false_iff, String.eqb_eq in H. exact H.
Qed.

Lemma accumulated_snoc_other deltas d index :
  tcd_index d <> index -> accumulated (deltas ++ [d]) index = accumulated deltas index.
Proof.
  intros Hne. unfold accumulated. rewrite ofIndex_snoc.
  rewrite decide_False by exact Hne. rewrite app_nil_r. reflexivity.
Qed.

Lemma accumulated_snoc_same deltas d :
  accumulated (deltas ++ [d]) (tcd_index d) = mergeDelta (accumulated deltas (tcd_index d)) d.
Proof.
  unfold accumulated, mergeDelta. rewrite ofIndex_snoc.
  rewrite decide_True by reflexivity.
  rewrite !map_app. cbn [map]. rewrite !fold_left_app, concatenated_snoc.
  cbn [fold_left atc_id atc_name atc_arguments]. unfold overwrite.
  f_equal.
  destruct (truthy (deltaArguments d)) eqn:E; [reflexivity|].
  rewrite not_truthy_default by exact E. apply string_app_nil_r.
Qed.

Lemma accumulated_unseen deltas index :
  index ∉ firstSeen deltas ->
  accumulated deltas index = {| atc_id := ""; atc_name := ""; atc_arguments := "" |}.
Proof.
  intros Hnot. unfold accumulated.
  destruct (ofIndex index deltas) eqn:E; [reflexivity|].
  exfalso. apply Hnot, firstSeen_elem. rewrite E. discriminate.
Qed.

Lemma mergeDelta_seed d :
  mergeDelta {| atc_id := default "" (tcd_id d);
                atc_name := default "" (deltaName d);
                atc_arguments := "" |} d
  = mergeDelta {| atc_id := ""; atc_name := ""; atc_arguments := "" |} d.
Proof.
  unfold mergeDelta. cbn [atc_id atc_name atc_arguments]. f_equal.
  - destruct (truthy (tcd_id d)) eqn:E; [reflexivity|]. apply not_truthy_default, E.
  - destruct (truthy (deltaName d)) eqn:E; [reflexivity|]. apply not_truthy_default, E.
Qed.

Lemma tracks_inRange deltas calls indices :
  tracks deltas calls indices -> inRange calls indices.
Proof.
  intros [-> Hidx] index slot H. apply Hidx in H.
  rewrite length_map. eapply lookup_lt_Some, H.
Qed.

Lemma accumulateDelta_tracks deltas calls indices d :
  tracks deltas calls indices ->
  exists calls1 indices1,
    accumulateDelta (calls, indices) d = Some (calls1, indices1)
    /\ tracks (deltas ++ [d]) calls1 indices1.
Proof.
  intros [Hcalls Hidx]. pose proof (firstSeen_NoDup deltas) as Hnodup.
  unfold accumulateDelta.
  destruct (indices !! tcd_index d) as [slot|] eqn:Hslot; cbn beta iota.
  - rewrite Hslot. pose proof (proj1 (Hidx _ _) Hslot) as Hseen.
    assert (calls !! slot = Some (accumulated deltas (tcd_index d))) as Hcall.
    { rewrite Hcalls, list_lookup_fmap, Hseen. reflexivity. }
    rewrite Hcall. eexists _, _. split; [reflexivity|].
    assert (firstSeen (deltas ++ [d]) = firstSeen deltas) as Hsame.
    { rewrite firstSeen_snoc, bool_decide_eq_true_2; [reflexivity|].
      eapply list_elem_of_lookup_2, Hseen. }
    split; [|rewrite Hsame; exact Hidx].
    rewrite Hsame. apply list_eq. intros q.
    destruct (decide (q = slot)) as [->|Hq].
    + rewrite list_lookup_insert_eq by (eapply lookup_lt_Some, Hcall).
      rewrite list_lookup_fmap, Hseen. cbn -[accumulated mergeDelta].
      rewrite accumulated_snoc_same. reflexivity.
    + rewrite list_lookup_insert_ne by congruence.
      rewrite Hcalls, !list_lookup_fmap.
      destruct (firstSeen deltas !! q) as [j|] eqn:Hj; [|reflexivity].
      cbn -[accumulated]. rewrite accumulated_snoc_other; [reflexivity|].
      intros <-. apply Hq. eapply NoDup_lookup; eassumption.
  - rewrite lookup_insert_eq.
    rewrite lookup_app_r, Nat.sub_diag by lia. cbn [lookup list_lookup].
    eexists _, _. split; [reflexivity|].
    assert (tcd_index d ∉ firstSeen deltas) as Hnew.
    { intros Hin. apply list_elem_of_lookup_1 in Hin as [s Hs].
      apply Hidx in Hs. congruence. }
    assert (firstSeen (deltas ++ [d]) = firstSeen deltas ++ [tcd_index d]) as Hgrow.
    { rewrite firstSeen_snoc, bool_decide_eq_false_2; [reflexivity|exact Hnew]. }
    assert (length calls = length (firstSeen deltas)) as Hlen.
    { rewrite Hcalls, length_map. reflexivity. }
    unfold tracks. rewrite Hgrow. split.
    + rewrite insert_app_r_alt, Nat.sub_diag by lia. cbn [insert list_insert].
      rewrite map_app. cbn [map].
      rewrite accumulated_snoc_same, (accumulated_unseen deltas _ Hnew), mergeDelta_seed.
      f_equal. rewrite Hcalls. apply map_ext_in. intros j Hj.
      symmetry. apply accumulated_snoc_other. intros <-.
      apply Hnew, list_elem_of_In, Hj.
    + intros index slot. rewrite Hlen.
      destruct (decide (tcd_index d = index)) as [Heq|Hne].
      * subst index. rewrite lookup_insert_eq. split.
        -- intros [= <-]. rewrite lookup_app_r, Nat.sub_diag by lia. reflexivity.
        -- intros H. apply lookup_app_Some in H as [H|[Hge H]].
           ++ exfalso. eapply Hnew, list_elem_of_lookup_2, H.
           ++ apply list_lookup_singleton_Some in H as [H _]. f_equal. lia.
      * rewrite lookup_insert_ne by exact Hne. rewrite Hidx. split.
        -- intros H. apply lookup_app_l_Some, H.
        -- intros H. apply lookup_app_Some in H as [H|[Hge H]]; [exact H|].
           apply list_lookup_singleton_Some in H as [_ H]. congruence.
Qed.

Lemma accumulateDeltas_tracks more deltas calls indices :
  tracks deltas calls indices ->
  exists calls1 indices1,
    accumulateDeltas (calls, indices) more = Some (calls1, indices1)
    /\ tracks (deltas ++ more) calls1 indices1.
Proof.
  revert deltas calls indices.
  induction more as [|d more IH]; intros deltas calls indices Htracks.
  - rewrite app_nil_r. eexists _, _. split; [reflexivity|exact Htracks].
  - cbn [accumulateDeltas].
    destruct (accumulateDelta_tracks deltas calls indices d Htracks)
      as (c1 & i1 & -> & Htracks1).
    destruct (IH _ _ _ Htracks1) as (c2 & i2 & Hacc & Htracks2).
    exists c2, i2. split; [exact Hacc|].
    rewrite <- app_assoc in Htracks2. exact Htracks2.
Qed.

Lemma feed_tracks p inputs deltas a :
  tracks deltas (toolCalls (state a)) (currentToolCallIndices a) ->
  exists a1,
    feed p inputs a = Some a1
    /\ tracks (deltas ++ streamDeltas inputs)
         (toolCalls (state a1)) (currentToolCallIndices a1).
Proof.
  revert deltas a. induction inputs as [|[now chunk] inputs IH]; intros deltas a Htracks.
  - exists a. split; [reflexivity|]. unfold streamDeltas. cbn [map concat].
    rewrite app_nil_r. exact Htracks.
  - destruct (processChunk_step p now chunk a (tracks_inRange _ _ _ Htracks))
      as (r & a1 & c1 & i1 & Hstep & Hacc & <- & <- & _).
    destruct (accumulateDeltas_tracks (chunkDeltas chunk) _ _ _ Htracks)
      as (c2 & i2 & Hacc2 & Htracks1).
    rewrite Hacc in Hacc2. injection Hacc2 as <- <-.
    destruct (IH _ _ Htracks1) as (a2 & Hfeed & Htracks2).
    exists a2. cbn [feed]. rewrite Hstep. split; [exact Hfeed|].
    unfold streamDeltas in *. cbn [map concat snd].
    rewrite app_assoc. exact Htracks2.
Qed.

(** C2. Over any stream of chunks fed to a fresh stream adapter of either
    provider, processing never throws and, with [deltas] the tool-call
    fragments of the stream in arrival order: [state.toolCalls] has one slot
    for each provider-given index, in the order in which the indices first
    occur; the adapter's index map sends an index to its slot; the slot
    holds the id and the name of the last fragment of that index that
    carries one (empty if none does), and its arguments are the
    concatenation, in arrival order, of the argument fragments of that
    index. *)
Theorem tool_call_fragments_are_accumulated
    (p : Provider) (start : Z) (inputs : list (Z * Chunk)) :
  exists a,
    feed p inputs (new start) = Some a
    /\ toolCalls (state a)
       = map (accumulated (streamDeltas inputs)) (firstSeen (streamDeltas inputs))
    /\ (forall index slot,
          currentToolCallIndices a !! index = Some slot
          <-> firstSeen (streamDeltas inputs) !! slot = Some index)
    /\ (forall index slot,
          currentToolCallIndices a !! index = Some slot ->
          exists toolCall,
            toolCalls (state a) !! slot = Some toolCall
            /\ atc_arguments toolCall
               = concatenated (map deltaArguments (ofIndex index (streamDeltas inputs)))
            /\ atc_id toolCall
               = fold_left overwrite (map tcd_id (ofIndex index (streamDeltas inputs))) ""
            /\ atc_name toolCall
               = fold_left overwrite (map deltaName (ofIndex index (streamDeltas inputs))) "").
Proof.
  destruct (feed_tracks p inputs [] (new start)) as (a & Hfeed & Hcalls & Hidx).
  { split; [reflexivity|]. intros index slot. cbn. rewrite lookup_empty. 
    split; discriminate. }
  cbn [app] in *.
  exists a. repeat split; try assumption; try apply Hidx.
  intros index slot H. apply Hidx in H.
  exists (accumulated (streamDeltas inputs) index).
  rewrite Hcalls, list_lookup_fmap, H. repeat split; reflexivity.
Qed.

(** The call [read_file] delivered in three fragments, interleaved with a
    second call. *)
Example fragments_of_two_calls :
  exists a,
    feed mistral
      [(1%Z, fragmentChunk 0 (Some "call_a") (Some "read_file") (Some "{"));
       (2%Z, fragmentChunk 1 (Some "call_b") (Some "list_dir") None);
       (3%Z, fragmentChunk 0 None None (Some "'file_path':"));
       (4%Z, fragmentChunk 1 None None (Some "{}"));
       (5%Z, fragmentChunk 0 None None (Some "'/tmp/x'}"))]
      (new 0) = Some a
    /\ toolCalls (state a)
       = [{| atc_id := "call_a"; atc_name := "read_file";
             atc_arguments := "{'file_path':'/tmp/x'}" |};
          {| atc_id := "call_b"; atc_name := "list_dir"; atc_arguments := "{}" |}].
Proof. eexists. split; vm_compute; reflexivity. Qed.

End ToolCallDeltas.

(** ** Finalization and refusal *)

Section ResponseFacts.
Import StreamAdapter.

(** C3. For every accumulator state of either provider,
    [toProviderResponse()] returns a response with one choice whose
    [finish_reason] is the accumulated [stopReason], and ["stop"] when there
    is none; whose usage is the accumulated one, and 0/0/0 when none was
    received; and whose message has a [tool_calls] array, holding the
    accumulated calls as function calls, only if at least one tool call was
    accumulated. *)
Theorem toProviderResponse_defaults (p : Provider) (now : Z) (a : StreamAdapter.t) :
  exists choice,
    resp_choices (toProviderResponse p now a) = [choice]
    /\ choice_finish_reason choice
       = match stopReason (state a) with
         | Some reason => reason
         | None => "stop"
         end
    /\ resp_usage (toProviderResponse p now a)
       = match usage (state a) with
         | Some u =>
             Some {| completion_tokens := outputTokens u;
                     prompt_tokens := inputTokens u;
                     total_tokens := inputTokens u + outputTokens u |}
         | None =>
             Some {| completion_tokens := 0; prompt_tokens := 0; total_tokens := 0 |}
         end
    /\ rm_tool_calls (choice_message choice)
       = match toolCalls (state a) with
         | [] => None
         | calls =>
             Some (map (fun tc =>
                          {| tc_id := atc_id tc;
                             tc_type := FunctionType;
                             tc_function := {| fc_arguments := atc_arguments tc;
                                               fc_name := atc_name tc |} |})
                       calls)
         end
    /\ (is_Some (rm_tool_calls (choice_message choice)) <-> toolCalls (state a) <> []).
Proof.
  eexists. split; [reflexivity|].
  cbn [toProviderResponse resp_usage choice_finish_reason choice_message rm_tool_calls].
  split; [destruct (stopReason (state a)); reflexivity|].
  split; [destruct (usage (state a)); reflexivity|].
  split; [destruct (toolCalls (state a)); reflexivity|].
  destruct (toolCalls (state a)); cbn; split.
  - intros [? [=]].
  - congruence.
  - discriminate.
  - eauto.
Qed.

(** C4. For every completed response of either provider and every pair of
    strings, [toRefusalResponse] returns a response with the same id, model
    and usage and a single choice: an assistant message whose content is
    [contentMessage], with no tool calls and no function call, and
    [finish_reason] ["stop"]. *)
Theorem toRefusalResponse_replaces_the_message
    (p : Provider) (refusalMessage contentMessage : string) (a : ResponseAdapter.t) :
  let refusal := ResponseAdapter.toRefusalResponse p refusalMessage contentMessage a in
  exists choice,
    resp_choices refusal = [choice]
    /\ rm_role (choice_message choice) = RoleAssistant
    /\ rm_content (choice_message choice) = Some contentMessage
    /\ rm_tool_calls (choice_message choice) = None
    /\ rm_function_call (choice_message choice) = None
    /\ choice_finish_reason choice = "stop"
    /\ resp_id refusal = resp_id (ResponseAdapter.response a)
    /\ resp_model refusal = resp_model (ResponseAdapter.response a)
    /\ resp_usage refusal = resp_usage (ResponseAdapter.response a).
Proof.
  eexists. split; [reflexivity|]. destruct p; repeat split; reflexivity.
Qed.

End ResponseFacts.

(** ** Request adapters *)

Section RequestFacts.
Import RequestAdapter RequestSpec Examples.

Lemma after_accessor {Value : Type} (JSON_parse : string -> option Value)
    (p : Provider) (call : Accessor) (a : RequestAdapter.t) :
  after JSON_parse p call a = a.
Proof. destruct call; reflexivity. Qed.

(** C7. For either request adapter, any sequence of accessor calls
    ([getModel], [isStreaming], [getMessages], [getToolResults], [getTools],
    [hasTools], [getProviderMessages], [getOriginalRequest] and
    [toProviderRequest] itself) leaves the adapter as it was, so that
    [toProviderRequest()] called again, with no mutation in between, returns
    the same request. *)
Theorem toProviderRequest_is_repeatable
    {Value : Type} (JSON_parse : string -> option Value)
    (p : Provider) (a : RequestAdapter.t) (calls : list Accessor) :
  let (first, a1) := toProviderRequest a in
  let a2 := fold_left (fun adapter call => after JSON_parse p call adapter) calls a1 in
  a2 = a /\ fst (toProviderRequest a2) = first.
Proof.
  cbn [toProviderRequest].
  assert (forall b,
            fold_left (fun adapter call => after JSON_parse p call adapter) calls b = b)
    as Hsame.
  { induction calls as [|call calls IH]; intros b; [reflexivity|].
    cbn [fold_left]. rewrite after_accessor. apply IH. }
  rewrite Hsame. split; reflexivity.
Qed.

Lemma matchingCall_minimax_mistral toolCalls toolCallId :
  matchingCall minimax toolCalls toolCallId = matchingCall mistral toolCalls toolCallId.
Proof.
  induction toolCalls as [|tc toolCalls IH]; [reflexivity|].
  cbn [matchingCall]. rewrite IH. destruct (tc_type tc). reflexivity.
Qed.

Lemma matchingCall_Some p toolCalls toolCallId name :
  matchingCall p toolCalls toolCallId = Some name ->
  exists before tc rest,
    toolCalls = before ++ tc :: rest
    /\ tc_id tc = toolCallId
    /\ fc_name (tc_function tc) = name
    /\ Forall (fun t => tc_id t <> toolCallId) before.
Proof.
  induction toolCalls as [|tc toolCalls IH]; [discriminate|].
  cbn [matchingCall]. destruct (String.eqb (tc_id tc) toolCallId) eqn:E.
  - apply String.eqb_eq in E. intros H.
    exists [], tc, toolCalls. repeat split; try assumption; [|constructor].
    destruct p; [destruct (tc_type tc)|]; congruence.
  - apply String.eqb_neq in E. intros H.
    destruct (IH H) as (before & tc' & rest & -> & Hid & Hname & Hbefore).
    exists (tc :: before), tc', rest. repeat split; try assumption.
    constructor; assumption.
Qed.

Lemma matchingCall_None p toolCalls toolCallId :
  matchingCall p toolCalls toolCallId = None <->
  existsb (fun tc => String.eqb (tc_id tc) toolCallId) toolCalls = false.
Proof.
  induction toolCalls as [|tc toolCalls IH]; [split; reflexivity|].
  cbn [matchingCall existsb]. destruct (String.eqb (tc_id tc) toolCallId); cbn [orb].
  - split; [|discriminate]. destruct p; [destruct (tc_type tc)|]; discriminate.
  - exact IH.
Qed.

Lemma scanBackward_Some p reversed toolCallId name :
  scanBackward p reversed toolCallId = Some name ->
  exists later am toolCalls earlier,
    reversed = later ++ MAssistant am :: earlier
    /\ am_tool_calls am = Some toolCalls
    /\ matchingCall p toolCalls toolCallId = Some name
    /\ Forall (fun m => offers toolCallId m = false) later.
Proof.
  induction reversed as [|m reversed IH]; [discriminate|].
  assert (offers toolCallId m = false ->
          scanBackward p reversed toolCallId = Some name ->
          exists later am toolCalls earlier,
            m :: reversed = later ++ MAssistant am :: earlier
            /\ am_tool_calls am = Some toolCalls
            /\ matchingCall p toolCalls toolCallId = Some name
            /\ Forall (fun m => offers toolCallId m = false) later) as Hskip.
  { intros Hm H. destruct (IH H) as (later & am & tcs & earlier & -> & ? & ? & ?).
    exists (m :: later), am, tcs, earlier. repeat split; try assumption.
    constructor; assumption. }
  destruct m as [| | |am| |]; cbn [scanBackward]; try (apply Hskip; reflexivity).
  destruct (am_tool_calls am) as [tcs|] eqn:Etcs.
  - destruct (matchingCall p tcs toolCallId) as [n|] eqn:Ematch.
    + intros [= <-]. exists [], am, tcs, reversed. repeat split; try assumption.
      constructor.
    + apply Hskip. cbn [offers]. rewrite Etcs. apply matchingCall_None in Ematch.
      exact Ematch.
  - apply Hskip. cbn [offers]. rewrite Etcs. reflexivity.
Qed.

Lemma scanBackward_None p reversed toolCallId :
  scanBackward p reversed toolCallId = None <->
  existsb (offers toolCallId) reversed = false.
Proof.
  induction reversed as [|m reversed IH]; [split; reflexivity|].
  cbn [existsb].
  destruct m as [| | |am| |]; cbn [scanBackward offers orb]; try exact IH.
  destruct (am_tool_calls am) as [tcs|]; cbn [orb]; [|exact IH].
  destruct (matchingCall p tcs toolCallId) as [n|] eqn:Ematch.
  - split; [discriminate|].
    destruct (existsb (fun tc => String.eqb (tc_id tc) toolCallId) tcs) eqn:E;
      [discriminate|].
    apply (proj2 (matchingCall_None p tcs toolCallId)) in E. congruence.
  - apply matchingCall_None in Ematch. rewrite Ematch. exact IH.
Qed.

Lemma existsb_rev {A} (f : A -> bool) (l : list A) : existsb f (rev l) = existsb f l.
Proof.
  induction l as [|x l IH]; [reflexivity|].
  cbn [rev existsb]. rewrite existsb_app, IH. cbn [existsb].
  rewrite orb_false_r. apply orb_comm.
Qed.

Lemma findToolNameInMessages_None p messages toolCallId :
  findToolNameInMessages p messages toolCallId = None <->
  existsb (offers toolCallId) messages = false.
Proof.
  unfold findToolNameInMessages. rewrite scanBackward_None. rewrite existsb_rev.
  reflexivity.
Qed.

Lemma push_fold {A B} (g : A -> B) (l : list A) (acc : list B) :
  fold_left (fun out x => out ++ [g x]) l acc = acc ++ map g l.
Proof.
  revert acc. induction l as [|x l IH]; intros acc; cbn [fold_left map].
  - symmetry. apply app_nil_r.
  - rewrite IH, <- app_assoc. reflexivity.
Qed.

Lemma push_tool_fold {B} (g : ToolMessage -> B) (l : list Message) (acc : list B) :
  fold_left (fun out m => match m with MTool tm => out ++ [g tm] | _ => out end) l acc
  = acc ++ map g (toolMessages l).
Proof.
  revert acc. induction l as [|m l IH]; intros acc.
  - symmetry. apply app_nil_r.
  - cbn [fold_left]. rewrite IH. unfold toolMessages.
    destruct m; cbn [omap list_omap map]; try reflexivity.
    rewrite <- app_assoc. reflexivity.
Qed.

Lemma getToolResults_map {Value : Type} (JSON_parse : string -> option Value) p a :
  fst (getToolResults JSON_parse p a) =
  map (fun tm =>
         {| ctr_id := tm_tool_call_id tm;
            ctr_name := default "unknown"
                          (findToolNameInMessages p (req_messages (request a))
                             (tm_tool_call_id tm));
            ctr_content := toolContent JSON_parse (tm_content tm);
            ctr_isError := false |})
      (toolMessages (req_messages (request a))).
Proof.
  unfold getToolResults. cbn [fst]. rewrite push_tool_fold. reflexivity.
Qed.

Lemma toCommonFormat_map {Value : Type} (JSON_parse : string -> option Value) p messages :
  toCommonFormat JSON_parse p messages = map (toCommonMessage JSON_parse p messages) messages.
Proof. unfold toCommonFormat. rewrite push_fold. reflexivity. Qed.

(** C9. For either request adapter and every tool-call id: the name found
    for it is that of the first matching call of the last assistant message
    whose tool calls contain the id (no later message offers the id), and
    there is none exactly when no assistant message offers the id.
    [getToolResults] reports one result for each tool-role message, in
    order, under the name found for its [tool_call_id], and under
    ["unknown"] when there is none; [getMessages] attaches to a tool-role
    message the result under the name found, when one is found. *)
Theorem tool_results_are_named_by_backward_scan
    {Value : Type} (JSON_parse : string -> option Value)
    (p : Provider) (a : RequestAdapter.t) :
  let messages := req_messages (request a) in
  (forall toolCallId,
     match findToolNameInMessages p messages toolCallId with
     | Some name =>
         exists earlier am toolCalls later before tc rest,
           messages = earlier ++ MAssistant am :: later
           /\ am_tool_calls am = Some toolCalls
           /\ toolCalls = before ++ tc :: rest
           /\ tc_id tc = toolCallId
           /\ fc_name (tc_function tc) = name
           /\ Forall (fun t => tc_id t <> toolCallId) before
           /\ Forall (fun m => offers toolCallId m = false) later
     | None => existsb (offers toolCallId) messages = false
     end)
  /\ fst (getToolResults JSON_parse p a)
     = map (fun tm =>
              {| ctr_id := tm_tool_call_id tm;
                 ctr_name :=
                   match findToolNameInMessages p messages (tm_tool_call_id tm) with
                   | Some name => name
                   | None => "unknown"
                   end;
                 ctr_content := toolContent JSON_parse (tm_content tm);
                 ctr_isError := false |})
           (toolMessages messages)
  /\ (forall tm,
        MTool tm ∈ messages ->
        existsb (offers (tm_tool_call_id tm)) messages = false ->
        {| ctr_id := tm_tool_call_id tm;
           ctr_name := "unknown";
           ctr_content := toolContent JSON_parse (tm_content tm);
           ctr_isError := false |} ∈ fst (getToolResults JSON_parse p a))
  /\ (forall k tm name,
        messages !! k = Some (MTool tm) ->
        findToolNameInMessages p messages (tm_tool_call_id tm) = Some name ->
        name <> "" ->
        fst (getMessages JSON_parse p a) !! k
        = Some {| cm_role := RoleTool;
                  cm_content := None;
                  cm_toolCalls :=
                    Some [{| ctr_id := tm_tool_call_id tm;
                             ctr_name := name;
                             ctr_content := toolContent JSON_parse (tm_content tm);
                             ctr_isError := false |}] |}).
Proof.
  cbn zeta. split; [|split; [|split]].
  - intros toolCallId.
    destruct (findToolNameInMessages p (req_messages (request a)) toolCallId)
      as [name|] eqn:E.
    + unfold findToolNameInMessages in E.
      apply scanBackward_Some in E as (later & am & tcs & earlier & Hrev & Htcs & Hm & Hl).
      apply matchingCall_Some in Hm as (before & tc & rest & -> & Hid & Hname & Hb).
      exists (rev earlier), am, (before ++ tc :: rest), (rev later), before, tc, rest.
      repeat split; try assumption.
      * rewrite <- (rev_involutive (req_messages (request a))), Hrev.
        rewrite rev_app_distr. cbn [rev]. rewrite <- app_assoc. reflexivity.
      * apply Forall_rev, Hl.
    + exact (proj1 (findToolNameInMessages_None _ _ _) E).
  - apply getToolResults_map.
  - intros tm Hin Hnone. rewrite getToolResults_map.
    apply (proj2 (findToolNameInMessages_None p _ _)) in Hnone.
    apply list_elem_of_fmap. exists tm. rewrite Hnone. split; [reflexivity|].
    unfold toolMessages. apply list_elem_of_omap. exists (MTool tm). split; [exact Hin|reflexivity].
  - intros k tm name Hk Hname Hne. unfold getMessages. cbn [fst].
    rewrite toCommonFormat_map, list_lookup_fmap, Hk. cbn [fmap option_fmap option_map].
    unfold toCommonMessage. rewrite Hname. cbn [truthy].
    rewrite (proj2 (String.eqb_neq name "") Hne). reflexivity.
Qed.

(** C10. For either request adapter and every tool-role message whose
    [tool_call_id] matches no tool call of any assistant message:
    [getMessages()] returns for it, at its position, a canonical message
    that carries only the role (no content, no [toolCalls]), while
    [getToolResults()] reports that result, with its content, under the
    name ["unknown"]. *)
Theorem unmatched_tool_message_keeps_only_its_role
    {Value : Type} (JSON_parse : string -> option Value)
    (p : Provider) (a : RequestAdapter.t) (k : nat) (tm : ToolMessage) :
  req_messages (request a) !! k = Some (MTool tm) ->
  existsb (offers (tm_tool_call_id tm)) (req_messages (request a)) = false ->
  fst (getMessages JSON_parse p a) !! k
  = Some {| cm_role := RoleTool; cm_content := None; cm_toolCalls := None |}
  /\ {| ctr_id := tm_tool_call_id tm;
        ctr_name := "unknown";
        ctr_content := toolContent JSON_parse (tm_content tm);
        ctr_isError := false |} ∈ fst (getToolResults JSON_parse p a).
Proof.
  intros Hk Hnone.
  apply (proj2 (findToolNameInMessages_None p _ _)) in Hnone. split.
  - unfold getMessages. cbn [fst].
    rewrite toCommonFormat_map, list_lookup_fmap, Hk. cbn [fmap option_fmap option_map].
    unfold toCommonMessage. rewrite Hnone. reflexivity.
  - rewrite getToolResults_map. apply list_elem_of_fmap. exists tm.
    rewrite Hnone. split; [reflexivity|].
    unfold toolMessages. apply list_elem_of_omap. exists (MTool tm).
    split; [eapply list_elem_of_lookup_2, Hk|reflexivity].
Qed.

Lemma unmatched_tool_message_keeps_only_its_role_witness :
  fst (getMessages read_text minimax (RequestAdapter.new orphanRequest)) !! 1
  = Some {| cm_role := RoleTool; cm_content := None; cm_toolCalls := None |}
  /\ {| ctr_id := "call_9";
        ctr_name := "unknown";
        ctr_content := toolContent read_text (ContentText "42");
        ctr_isError := false |}
     ∈ fst (getToolResults read_text minimax (RequestAdapter.new orphanRequest)).
Proof.
  apply (unmatched_tool_message_keeps_only_its_role
           read_text minimax (RequestAdapter.new orphanRequest) 1 orphanToolMessage);
    reflexivity.
Defined.

End RequestFacts.
(** ** TOON compression *)

Section ToonFacts.
Import RequestAdapter Toon Examples.

Lemma convertMinimax_lookup {Value : Type} (JSON_parse : string -> option Value)
    ext model messages stats k message :
  messages !! k = Some message ->
  exists stats1,
    fst (convertToolResultsToToonMinimax JSON_parse ext model messages stats) !! k
    = Some (fst (compressMinimax JSON_parse ext model message stats1)).
Proof.
  revert stats k. induction messages as [|m messages IH]; intros stats k Hk;
    [discriminate|].
  cbn [convertToolResultsToToonMinimax].
  destruct (compressMinimax JSON_parse ext model m stats) as [m1 stats1] eqn:Em.
  destruct (convertToolResultsToToonMinimax JSON_parse ext model messages stats1)
    as [rest1 stats2] eqn:Erest.
  destruct k as [|k]; cbn [fst lookup list_lookup] in *.
  - injection Hk as <-. exists stats. rewrite Em. reflexivity.
  - destruct (IH stats1 k Hk) as [s Hs]. rewrite Erest in Hs. eauto.
Qed.

Lemma mapMistral_lookup {Value : Type} (JSON_parse : string -> option Value)
    ext messages totals k message :
  messages !! k = Some message ->
  exists totals1,
    fst (mapMistral JSON_parse ext messages totals) !! k
    = Some (fst (compressMistral JSON_parse ext message totals1)).
Proof.
  revert totals k. induction messages as [|m messages IH]; intros totals k Hk;
    [discriminate|].
  cbn [mapMistral].
  destruct (compressMistral JSON_parse ext m totals) as [m1 totals1] eqn:Em.
  destruct (mapMistral JSON_parse ext messages totals1) as [rest1 totals2] eqn:Erest.
  destruct k as [|k]; cbn [fst lookup list_lookup] in *.
  - injection Hk as <-. exists totals. rewrite Em. reflexivity.
  - destruct (IH totals1 k Hk) as [s Hs]. rewrite Erest in Hs. eauto.
Qed.

(** The message MiniMax's compression leaves at a position. *)
Lemma minimax_lookup {Value : Type} (JSON_parse : string -> option Value)
    ext model a k message :
  req_messages (request a) !! k = Some message ->
  exists stats,
    req_messages (request (snd (applyToonCompressionMinimax JSON_parse ext model a))) !! k
    = Some (fst (compressMinimax JSON_parse ext model message stats)).
Proof.
  intros Hk. unfold applyToonCompressionMinimax.
  destruct (convertMinimax_lookup JSON_parse ext model _ emptyStats k _ Hk) as [s Hs].
  destruct (convertToolResultsToToonMinimax JSON_parse ext model
              (req_messages (request a)) emptyStats) as [ms st].
  cbn [snd request req_messages withMessages fst] in *. eauto.
Qed.

(** The message Mistral's compression leaves at a position. *)
Lemma mistral_lookup {Value : Type} (JSON_parse : string -> option Value)
    ext model a k message :
  req_messages (request a) !! k = Some message ->
  exists totals,
    req_messages (request (snd (applyToonCompressionMistral JSON_parse ext model a))) !! k
    = Some (fst (compressMistral JSON_parse ext message totals)).
Proof.
  intros Hk. unfold applyToonCompressionMistral, convertToolResultsToToonMistral.
  destruct (mapMistral_lookup JSON_parse ext (req_messages (request a))
              {| toolResultCount := 0; totalTokensBefore := 0; totalTokensAfter := 0 |}
              k _ Hk) as [s Hs].
  destruct (mapMistral JSON_parse ext (req_messages (request a)) _) as [ms st].
  cbn [snd request req_messages withMessages fst] in *. eauto.
Qed.

(** C5 (as amended). Whatever [JSON.parse] and the encoder do, for every
    tool-role message of the request at its position in the messages
    [applyToonCompression] leaves behind: MiniMax leaves the message
    untouched when its content does not parse, when the encoder throws and
    when the encoder reports that it did not compress, and otherwise puts
    the encoding in its place, the tool-call id and the name kept; Mistral
    leaves the message untouched when its content is not a string, when
    the unwrapping throws, when the unwrapped content does not parse, when
    the encoder throws and when a token count throws, and otherwise puts
    the encoding in its place, whatever the two token counts are. *)
Theorem applyToonCompression_outcome
    {Value : Type} (JSON_parse : string -> option Value)
    (ext : Externals Value) (model : string) (a : RequestAdapter.t)
    (k : nat) (tm : ToolMessage) :
  req_messages (request a) !! k = Some (MTool tm) ->
  let minimaxResult :=
    req_messages (request (snd (applyToonCompressionMinimax JSON_parse ext model a))) !! k in
  let mistralResult :=
    req_messages (request (snd (applyToonCompressionMistral JSON_parse ext model a))) !! k in
  let replacedBy compressed :=
    Some (MTool {| tm_content := ContentText compressed;
                   tm_tool_call_id := tm_tool_call_id tm;
                   tm_name := tm_name tm |}) in
  let untouched := Some (MTool tm) in
  (JSON_parse (originalContent (tm_content tm)) = None -> minimaxResult = untouched)
  /\ (forall parsed,
        JSON_parse (originalContent (tm_content tm)) = Some parsed ->
        (toonEncodeBudgeted ext parsed (tokenizerEncode ext model) 4000 = None ->
         minimaxResult = untouched)
        /\ (forall compressed,
              toonEncodeBudgeted ext parsed (tokenizerEncode ext model) 4000
              = Some (compressed, false) ->
              minimaxResult = untouched)
        /\ (forall compressed,
              toonEncodeBudgeted ext parsed (tokenizerEncode ext model) 4000
              = Some (compressed, true) ->
              minimaxResult = replacedBy compressed))
  /\ (forall parts, tm_content tm = ContentParts parts -> mistralResult = untouched)
  /\ (forall content,
        tm_content tm = ContentText content ->
        (unwrapToolContent ext content = None -> mistralResult = untouched)
        /\ (forall unwrapped,
              unwrapToolContent ext content = Some unwrapped ->
              (JSON_parse unwrapped = None -> mistralResult = untouched)
              /\ (forall parsed,
                    JSON_parse unwrapped = Some parsed ->
                    (toonEncode ext parsed = None -> mistralResult = untouched)
                    /\ (forall compressed,
                          toonEncode ext parsed = Some compressed ->
                          (countTokens ext unwrapped = None
                           \/ countTokens ext compressed = None ->
                           mistralResult = untouched)
                          /\ (forall before after,
                                countTokens ext unwrapped = Some before ->
                                countTokens ext compressed = Some after ->
                                mistralResult = replacedBy compressed))))).
Proof.
  intros Hk. cbn zeta.
  destruct (minimax_lookup JSON_parse ext model a k _ Hk) as [stats ->].
  destruct (mistral_lookup JSON_parse ext model a k _ Hk) as [totals ->].
  unfold compressMinimax, compressMistral.
  split; [|split; [|split]].
  - intros ->. reflexivity.
  - intros parsed ->. split; [|split].
    + intros ->. reflexivity.
    + intros compressed ->. reflexivity.
    + intros compressed ->. reflexivity.
  - intros parts ->. reflexivity.
  - intros content ->. split.
    + intros ->. reflexivity.
    + intros unwrapped ->. split.
      * intros ->. reflexivity.
      * intros parsed ->. split.
        -- intros ->. reflexivity.
        -- intros compressed ->. split.
           ++ intros [Hnone|Hnone].
              ** rewrite Hnone. reflexivity.
              ** rewrite Hnone. destruct (countTokens ext unwrapped); reflexivity.
           ++ intros before after -> ->. reflexivity.
Qed.

Lemma applyToonCompression_outcome_witness :
  let a := RequestAdapter.new compressionRequest in
  let minimaxResult ext k :=
    req_messages (request (snd (applyToonCompressionMinimax read_text ext "m" a))) !! k in
  let mistralResult ext k :=
    req_messages (request (snd (applyToonCompressionMistral read_text ext "m" a))) !! k in
  (minimaxResult sampleExternals 0 = Some (MTool plainToolMessage)
   /\ mistralResult sampleExternals 0 = Some (MTool plainToolMessage))
  /\ (minimaxResult sampleExternals 1 = Some (MTool emptyArrayToolMessage)
      /\ mistralResult sampleExternals 1
         = Some (MTool {| tm_content := ContentText "[0]:";
                          tm_tool_call_id := "call_1"; tm_name := None |})
      /\ mistralResult uncountedExternals 1 = Some (MTool emptyArrayToolMessage))
  /\ (minimaxResult sampleExternals 2
      = Some (MTool {| tm_content := ContentText "[2]: 1,2";
                       tm_tool_call_id := "call_3"; tm_name := None |})
      /\ mistralResult sampleExternals 2
         = Some (MTool {| tm_content := ContentText "[2]: 1,2";
                          tm_tool_call_id := "call_3"; tm_name := None |}))
  /\ (minimaxResult sampleExternals 3 = Some (MTool partsToolMessage)
      /\ mistralResult sampleExternals 3 = Some (MTool partsToolMessage)).
Proof.
  cbn zeta.
  pose proof (applyToonCompression_outcome read_text sampleExternals "m"
                (RequestAdapter.new compressionRequest) 0 plainToolMessage eq_refl)
    as (Hplain & _ & _ & Hplain').
  pose proof (applyToonCompression_outcome read_text sampleExternals "m"
                (RequestAdapter.new compressionRequest) 1 emptyArrayToolMessage eq_refl)
    as (_ & Hempty & _ & Hempty').
  pose proof (applyToonCompression_outcome read_text uncountedExternals "m"
                (RequestAdapter.new compressionRequest) 1 emptyArrayToolMessage eq_refl)
    as (_ & _ & _ & Huncounted).
  pose proof (applyToonCompression_outcome read_text sampleExternals "m"
                (RequestAdapter.new compressionRequest) 2 pairToolMessage eq_refl)
    as (_ & Hpair & _ & Hpair').
  pose proof (applyToonCompression_outcome read_text sampleExternals "m"
                (RequestAdapter.new compressionRequest) 3 partsToolMessage eq_refl)
    as (_ & Hparts & Hparts' & _).
  cbn zeta in *.
  split; [split|split; [split; [|split]|split; [split|split]]].
  - apply Hplain. reflexivity.
  - apply (proj1 (proj2 (Hplain' "done" eq_refl) "done" eq_refl)). reflexivity.
  - apply (proj1 (proj2 (Hempty (JArr []) eq_refl))) with (compressed := "[0]:").
    reflexivity.
  - apply (proj2 (proj2 (proj2 (proj2 (Hempty' "[]" eq_refl) "[]" eq_refl)
                                 (JArr []) eq_refl) "[0]:" eq_refl))
      with (before := 2%Z) (after := 4%Z); reflexivity.
  - apply (proj1 (proj2 (proj2 (proj2 (Huncounted "[]" eq_refl) "[]" eq_refl)
                                 (JArr []) eq_refl) "[0]:" eq_refl)).
    left. reflexivity.
  - apply (proj2 (proj2 (Hpair (JArr [JNum 1; JNum 2]) eq_refl))). reflexivity.
  - apply (proj2 (proj2 (proj2 (proj2 (Hpair' "[1,2]" eq_refl) "[1,2]" eq_refl)
                                 (JArr [JNum 1; JNum 2]) eq_refl) "[2]: 1,2" eq_refl))
      with (before := 5%Z) (after := 8%Z); reflexivity.
  - apply (proj1 (Hparts (JArr [JObj [("type", JStr "text"); ("text", JStr "ok")]])
                    eq_refl)).
    reflexivity.
  - apply (Hparts' [TextPart "ok"]). reflexivity.
Defined.

(** C5, as stated, fails for Mistral: the compact encoding of the empty
    array has more tokens than its JSON text, and still replaces it. *)
Lemma mistral_replaces_without_comparing_tokens :
  let a := RequestAdapter.new emptyArrayRequest in
  let a1 := snd (applyToonCompressionMistral read_text sampleExternals "m" a) in
  req_messages (request a) !! 0 = Some (MTool emptyArrayToolMessage)
  /\ read_text "[]" = Some (JArr [])
  /\ toonEncode sampleExternals (JArr []) = Some "[0]:"
  /\ countTokens sampleExternals "[]" = Some 2%Z
  /\ countTokens sampleExternals "[0]:" = Some 4%Z
  /\ req_messages (request a1) !! 0
     = Some (MTool {| tm_content := ContentText "[0]:";
                      tm_tool_call_id := "call_1"; tm_name := None |})
  /\ req_messages (request a1) !! 0 <> Some (MTool emptyArrayToolMessage).
Proof.
  cbn zeta. repeat split; try reflexivity. vm_compute. discriminate.
Qed.

End ToonFacts.

(** ** The MiniMax client: server-sent events *)

Section ClientFacts.
Import MinimaxClient ClientSpec StreamFormat.
Local Open Scope char_scope.
Local Open Scope nat_scope.
Context {Value : Type} (JSON_parse : string -> option Value).

Lemma is_prefix_refl_app (p tl : list ascii) : is_prefix p (p ++ tl) = true.
Proof.
  induction p as [|c p IH]; [reflexivity|].
  cbn [app is_prefix]. rewrite Ascii.eqb_refl, IH. reflexivity.
Qed.

Lemma splitLines_oneLine (cs : list ascii) :
  oneLine cs = true -> splitLines cs = [cs].
Proof.
  induction cs as [|c cs IH]; [reflexivity|].
  cbn [oneLine forallb]. intros [Hc Hcs]%andb_prop.
  apply negb_true_iff in Hc. cbn [splitLines]. rewrite Hc.
  unfold oneLine in IH. rewrite (IH Hcs). reflexivity.
Qed.

Lemma splitLines_line (line rest : list ascii) :
  oneLine line = true ->
  splitLines (line ++ newline :: rest) = line :: splitLines rest.
Proof.
  induction line as [|c line IH]; [reflexivity|].
  cbn [oneLine forallb]. intros [Hc Hline]%andb_prop.
  apply negb_true_iff in Hc. cbn [app splitLines]. rewrite Hc.
  unfold oneLine in IH. rewrite (IH Hline). reflexivity.
Qed.

Lemma splitLines_nonempty (cs : list ascii) : splitLines cs <> [].
Proof.
  destruct cs as [|c cs]; [discriminate|]. cbn [splitLines].
  destruct (Ascii.eqb c newline); [discriminate|].
  destruct (splitLines cs); discriminate.
Qed.

(** Cutting a text in two: the lines before the cut are complete, and the
    last one continues with the rest. *)
Lemma popLast_splitLines (x y : list ascii) :
  exists complete buffer,
    popLast (splitLines x) = (complete, buffer)
    /\ oneLine buffer = true
    /\ splitLines (x ++ y) = complete ++ splitLines (buffer ++ y).
Proof.
  induction x as [|c x (complete & buffer & Hpop & Hone & Hsplit)].
  - exists [], []. repeat split; reflexivity.
  - cbn [app splitLines]. destruct (Ascii.eqb c newline) eqn:Ec.
    + exists ([] :: complete), buffer. rewrite Hsplit. repeat split; [|exact Hone].
      pose proof (splitLines_nonempty x) as Hne.
      cbn [popLast]. destruct (splitLines x); [contradiction|].
      rewrite Hpop. reflexivity.
    + pose proof (splitLines_nonempty x) as Hne.
      destruct (splitLines x) as [|line lines] eqn:Ex; [contradiction|].
      destruct lines as [|line2 lines].
      * simpl in Hpop. injection Hpop as <- <-.
        exists [], (c :: line). cbn [popLast app] in *.
        rewrite Hsplit. cbn [splitLines]. rewrite Ec.
        repeat split. cbn [oneLine forallb]. rewrite Ec. exact Hone.
      * change (popLast (line :: line2 :: lines))
          with (let (complete, buffer) := popLast (line2 :: lines) in
                (line :: complete, buffer)) in Hpop.
        destruct (popLast (line2 :: lines)) as [complete2 buffer2] eqn:Ep2.
        injection Hpop as <- <-.
        exists ((c :: line) :: complete2), buffer2. rewrite Hsplit.
        repeat split; [|exact Hone].
        change (popLast ((c :: line) :: line2 :: lines))
          with (let (complete, buffer) := popLast (line2 :: lines) in
                ((c :: line) :: complete, buffer)).
        rewrite Ep2. reflexivity.
Qed.

Lemma yieldOfRest_yieldOfLine (buffer : list ascii) :
  yieldOfRest JSON_parse buffer = yieldOfLine JSON_parse buffer.
Proof.
  unfold yieldOfRest, yieldOfLine. cbn zeta.
  destruct (chars_eqb (trim buffer) []); [reflexivity|]. cbn [orb].
  destruct (chars_eqb (trim buffer) doneLine) eqn:Ed; cbn [negb].
  - rewrite andb_false_r. reflexivity.
  - rewrite andb_true_r. reflexivity.
Qed.

Lemma readLoop_lines (pieces : list (list ascii)) (buffer : list ascii) :
  oneLine buffer = true ->
  exists yielded rest,
    readLoop JSON_parse pieces buffer = (yielded, rest)
    /\ yielded ++ omap (yieldOfLine JSON_parse) [rest]
       = omap (yieldOfLine JSON_parse) (splitLines (buffer ++ concat pieces)).
Proof.
  revert buffer. induction pieces as [|piece pieces IH]; intros buffer Hone.
  - exists [], buffer. split; [reflexivity|].
    cbn [concat]. rewrite app_nil_r, splitLines_oneLine by exact Hone. reflexivity.
  - cbn [readLoop concat].
    destruct (popLast_splitLines (buffer ++ piece) (concat pieces))
      as (complete & buffer1 & Hpop & Hone1 & Hsplit).
    rewrite Hpop.
    destruct (IH buffer1 Hone1) as (later & rest & Hloop & Hlater).
    rewrite Hloop. exists (omap (yieldOfLine JSON_parse) complete ++ later), rest.
    split; [reflexivity|].
    rewrite app_assoc, Hsplit, omap_app, <- Hlater, <- app_assoc. reflexivity.
Qed.

(** X1. The chunks [parseSSEStream] yields are those of the lines of the
    whole body, in order, whatever the pieces the body arrives in: a line
    yields the parsed payload when, trimmed, it starts with [data: ], is not
    [data: [DONE]] and its payload parses; any other line, and a payload
    that does not parse, is skipped without ending the stream. *)
Theorem parseSSEStream_yields_the_lines_of_the_body (pieces : list string) :
  parseSSEStream JSON_parse (Some pieces)
  = Some (omap (yieldOfLine JSON_parse) (splitLines (bodyText pieces))).
Proof.
  unfold parseSSEStream, bodyText.
  destruct (readLoop_lines (map list_ascii_of_string pieces) [] eq_refl)
    as (yielded & rest & Hloop & Hall).
  rewrite Hloop. cbn [app] in Hall. rewrite <- Hall, yieldOfRest_yieldOfLine.
  cbn [omap list_omap]. destruct (yieldOfLine JSON_parse rest); reflexivity.
Qed.

Lemma printable_app (xs ys : list ascii) :
  printable (xs ++ ys) = printable xs && printable ys.
Proof. apply forallb_app. Qed.

Lemma printable_escape (s : string) : printable (escape s) = true.
Proof.
  induction s as [|c s IH]; [reflexivity|].
  cbn [escape]. rewrite printable_app, IH, andb_true_r.
  destruct c as [[] [] [] [] [] [] [] []]; reflexivity.
Qed.

Lemma printable_quote (s : string) : printable (quote s) = true.
Proof.
  unfold quote. change (dquote :: escape s ++ [dquote]) with ([dquote] ++ escape s ++ [dquote]).
  rewrite !printable_app, printable_escape. reflexivity.
Qed.

Lemma printable_uint (u : Decimal.uint) : printable (uint_chars u) = true.
Proof. induction u; cbn [uint_chars]; try reflexivity; exact IHu. Qed.

Lemma printable_join (parts : list (list ascii)) :
  Forall (fun part => printable part = true) parts -> printable (join parts) = true.
Proof.
  induction 1 as [|part parts Hpart _ IH]; [reflexivity|].
  destruct parts as [|part2 parts]; [exact Hpart|].
  change (join (part :: part2 :: parts)) with (part ++ [","] ++ join (part2 :: parts)).
  rewrite !printable_app, Hpart, IH. reflexivity.
Qed.

Lemma printable_stringify (v : json) : printable (stringify_chars v) = true.
Proof.
  induction v as [| b | n | s | items IH | members IH] using json_nested_ind.
  - reflexivity.
  - destruct b; reflexivity.
  - cbn [stringify_chars]. unfold number_chars.
    destruct (Z.to_int n); [|cbn [printable forallb]]; apply printable_uint.
  - apply printable_quote.
  - cbn [stringify_chars].
    change ("[" :: ?x ++ ["]"]) with (["["] ++ x ++ ["]"]).
    rewrite !printable_app, printable_join; [reflexivity|].
    apply Forall_map. exact IH.
  - cbn [stringify_chars].
    change ("{" :: ?x ++ ["}"]) with (["{"] ++ x ++ ["}"]).
    rewrite !printable_app, printable_join; [reflexivity|].
    apply Forall_map. eapply Forall_impl; [exact IH|].
    intros [k v] Hv. cbn [fst snd] in *.
    change (quote k ++ ":" :: stringify_chars v)
      with (quote k ++ [":"] ++ stringify_chars v).
    rewrite !printable_app, printable_quote, Hv. reflexivity.
Qed.

Lemma printable_oneLine (cs : list ascii) : printable cs = true -> oneLine cs = true.
Proof.
  induction cs as [|c cs IH]; [reflexivity|].
  cbn [printable oneLine forallb]. intros [Hc Hcs]%andb_prop.
  unfold oneLine, printable in IH. rewrite (IH Hcs), andb_true_r.
  destruct (Ascii.eqb c newline) eqn:E; [|reflexivity].
  apply Ascii.eqb_eq in E. subst c. discriminate Hc.
Qed.

Lemma chars_of_append (x y : string) :
  list_ascii_of_string (x +:+ y) = list_ascii_of_string x ++ list_ascii_of_string y.
Proof.
  induction x as [|c x IH]; [reflexivity|].
  change (String c x +:+ y) with (String c (x +:+ y)).
  cbn [list_ascii_of_string app]. rewrite IH. reflexivity.
Qed.

Lemma trim_between (first last : ascii) (middle : list ascii) :
  is_space first = false -> is_space last = false ->
  trim (first :: middle ++ [last]) = first :: middle ++ [last].
Proof.
  intros Hfirst Hlast. unfold trim. cbn [trimStart]. rewrite Hfirst.
  change (first :: middle ++ [last]) with ((first :: middle) ++ [last]).
  rewrite rev_app_distr. cbn [rev app trimStart]. rewrite Hlast.
  change (last :: rev middle ++ [first]) with ([last] ++ rev (first :: middle)).
  rewrite rev_app_distr, rev_involutive. reflexivity.
Qed.

(** The line of a frame that carries an object yields what [JSON.parse]
    makes of the text of the object. *)
Lemma yieldOfLine_object (members : list (string * json)) :
  yieldOfLine JSON_parse (dataPrefix ++ stringify_chars (JObj members))
  = JSON_parse (JSON_stringify (JObj members)).
Proof.
  unfold yieldOfLine. cbn zeta.
  set (body := join (map (fun kv => quote (fst kv) ++ ":" :: stringify_chars (snd kv))
                         members)).
  assert (dataPrefix ++ stringify_chars (JObj members)
          = "d" :: (["a"; "t"; "a"; ":"; " "; "{"] ++ body) ++ ["}"]) as Hline.
  { reflexivity. }
  rewrite Hline, trim_between by reflexivity. rewrite <- Hline.
  assert (chars_eqb (dataPrefix ++ stringify_chars (JObj members)) [] = false) as ->.
  { apply bool_decide_eq_false_2. discriminate. }
  assert (chars_eqb (dataPrefix ++ stringify_chars (JObj members)) doneLine = false) as ->.
  { apply bool_decide_eq_false_2. rewrite Hline. discriminate. }
  cbn [orb]. unfold startsWithData. rewrite is_prefix_refl_app.
  unfold payload. change (skipn 6 (dataPrefix ++ ?x)) with x.
  reflexivity.
Qed.

Lemma dataFrame_chars (v : json) :
  list_ascii_of_string (dataFrame v)
  = (dataPrefix ++ stringify_chars v) ++ [newline; newline].
Proof.
  unfold dataFrame, JSON_stringify.
  rewrite !chars_of_append, list_ascii_of_string_of_list_ascii, app_assoc. reflexivity.
Qed.

Lemma frame_line_oneLine (v : json) : oneLine (dataPrefix ++ stringify_chars v) = true.
Proof.
  apply printable_oneLine. rewrite printable_app, printable_stringify. reflexivity.
Qed.

(** A frame at the head of a text yields its object as it is read back,
    then what the rest of the text yields. *)
Lemma yields_of_frame (members : list (string * json)) (rest : list ascii) :
  omap (yieldOfLine JSON_parse)
    (splitLines ((dataPrefix ++ stringify_chars (JObj members))
                 ++ [newline; newline] ++ rest))
  = omap (readBack JSON_parse) [JObj members]
    ++ omap (yieldOfLine JSON_parse) (splitLines rest).
Proof.
  cbn [app]. rewrite splitLines_line by apply frame_line_oneLine.
  change (splitLines (newline :: rest)) with ([] :: splitLines rest).
  cbn [omap list_omap]. rewrite yieldOfLine_object. unfold readBack.
  destruct (JSON_parse (JSON_stringify (JObj members))); reflexivity.
Qed.

Lemma yields_of_done (rest : list ascii) :
  omap (yieldOfLine JSON_parse) (splitLines (doneLine ++ [newline; newline] ++ rest))
  = omap (yieldOfLine JSON_parse) (splitLines rest).
Proof.
  cbn [app]. rewrite splitLines_line by reflexivity.
  change (splitLines (newline :: rest)) with ([] :: splitLines rest).
  reflexivity.
Qed.

Lemma bodyText_app (xs ys : list string) : bodyText (xs ++ ys) = bodyText xs ++ bodyText ys.
Proof. unfold bodyText. rewrite map_app, concat_app. reflexivity. Qed.

Lemma yields_of_call (call : FormatCall) (rest : list ascii) :
  omap (yieldOfLine JSON_parse) (splitLines (bodyText (framesOf call) ++ rest))
  = omap (readBack JSON_parse) [chunkOf call]
    ++ omap (yieldOfLine JSON_parse) (splitLines rest).
Proof.
  destruct call as [p now text a|p idNow now text a|p now a];
    cbn [framesOf chunkOf]; unfold bodyText, formatCompleteTextSSE;
    cbn [map concat]; rewrite app_nil_r.
  - unfold formatTextDeltaSSE. rewrite dataFrame_chars, <- app_assoc.
    apply yields_of_frame.
  - rewrite dataFrame_chars, <- app_assoc. apply yields_of_frame.
  - unfold formatEndSSE, JSON_stringify.
    rewrite !chars_of_append, list_ascii_of_string_of_list_ascii.
    change (list_ascii_of_string "data: ") with dataPrefix.
    change (list_ascii_of_string "data: [DONE]") with doneLine.
    change (list_ascii_of_string lineFeeds) with [newline; newline].
    rewrite <- !app_assoc.
    rewrite (app_assoc dataPrefix). unfold endChunk, chunkLiteral.
    rewrite yields_of_frame, yields_of_done. reflexivity.
Qed.

Lemma yields_of_calls (calls : list FormatCall) :
  omap (yieldOfLine JSON_parse) (splitLines (bodyText (concat (map framesOf calls))))
  = omap (fun call => readBack JSON_parse (chunkOf call)) calls.
Proof.
  induction calls as [|call calls IH]; [reflexivity|].
  cbn [map concat]. rewrite bodyText_app, yields_of_call, IH.
  cbn [omap list_omap]. destruct (readBack JSON_parse (chunkOf call)); reflexivity.
Qed.

(** X2. Whatever a stream adapter of either provider formats with
    [formatTextDeltaSSE], [formatCompleteTextSSE] and [formatEndSSE], in any
    sequence and for any text, any state and any clock, the client's
    [parseSSEStream] hands to [JSON.parse], from a body that carries these
    frames cut into pieces at any places, exactly the serialized chunk of
    each call, one for each call and in order, and yields what
    [JSON.parse] returns for it: no frame is cut by the splitting into
    lines or shortened by the trimming, and the [data: [DONE]] that ends
    the frames of [formatEndSSE] yields nothing. *)
Theorem formatted_frames_are_read_back
    (calls : list FormatCall) (pieces : list string) :
  bodyText pieces = bodyText (concat (map framesOf calls)) ->
  parseSSEStream JSON_parse (Some pieces)
  = Some (omap (fun call => readBack JSON_parse (chunkOf call)) calls).
Proof.
  intros Hbody. unfold parseSSEStream.
  destruct (readLoop_lines (map list_ascii_of_string pieces) [] eq_refl)
    as (yielded & rest & Hloop & Hall).
  rewrite Hloop. cbn [app] in Hall. fold (bodyText pieces) in Hall.
  rewrite Hbody, yields_of_calls in Hall.
  rewrite <- Hall, yieldOfRest_yieldOfLine.
  cbn [omap list_omap]. destruct (yieldOfLine JSON_parse rest); reflexivity.
Qed.

End ClientFacts.

(** ** What a stream leaves in the accumulator *)

Section SummaryFacts.
Import StreamAdapter StreamSpec StreamSummary StreamFormat.

(** Every field a chunk writes, and the result it returns. *)
Lemma processChunk_fields p now chunk a :
  inRange (toolCalls (state a)) (currentToolCallIndices a) ->
  exists r a1,
    processChunk p now chunk a = Some (r, a1)
    /\ inRange (toolCalls (state a1)) (currentToolCallIndices a1)
    /\ responseId (state a1) = ch_id chunk
    /\ model (state a1) = ch_model chunk
    /\ timing (state a1) = markFirstChunk now (timing (state a))
    /\ text (state a1) = text (state a) +:+ contentOf chunk
    /\ usage (state a1) = match usageRead p chunk with
                          | Some u => Some u
                          | None => usage (state a)
                          end
    /\ rawToolCallEvents (state a1)
       = rawToolCallEvents (state a) ++ (if carriesToolCalls chunk then [chunk] else [])
    /\ isToolCallChunk r = carriesToolCalls chunk
    /\ isFinal r = match p with
                   | minimax => carriesFinishReason (now, chunk)
                   | mistral => bool_decide (is_Some (usage (state a1)))
                   end.
Proof.
  intros Hin.
  assert (forall s content,
            appendContent s content
            = s +:+ (if truthy content then default "" content else "")) as Happend.
  { intros s content. unfold appendContent.
    destruct (truthy content); [reflexivity|]. symmetry. apply string_app_nil_r. }
  unfold contentOf, usageRead, carriesToolCalls, carriesFinishReason. cbn [snd].
  destruct p; cbn [processChunk]; unfold processChunkMinimax, processChunkMistral;
    (destruct (ch_choices chunk) as [|choice rest];
     [ eexists _, _; repeat split; try reflexivity; try exact Hin;
       try (symmetry; apply string_app_nil_r);
       try (symmetry; apply app_nil_r);
       try (destruct (ch_usage chunk); reflexivity) |]);
    (destruct (d_tool_calls (cc_delta choice)) as [deltas|];
     [ destruct (accumulateDeltas_inRange deltas _ _ Hin) as (c1 & i1 & Hacc & Hin1);
       rewrite Hacc |]);
    eexists _, _; repeat split; try reflexivity; try assumption;
    try apply Happend;
    try (symmetry; apply app_nil_r);
    try (destruct (ch_usage chunk); reflexivity).
Qed.

Lemma lastUsage_kept p inputs current :
  is_Some current -> is_Some (lastUsage p inputs current).
Proof.
  revert current. induction inputs as [|input inputs IH]; intros current Hc; [exact Hc|].
  cbn [lastUsage fold_left]. apply IH.
  destruct (usageRead p (snd input)); [eauto|exact Hc].
Qed.

Lemma lastUsage_snoc p inputs input current :
  lastUsage p (inputs ++ [input]) current
  = match usageRead p (snd input) with
    | Some u => Some u
    | None => lastUsage p inputs current
    end.
Proof. unfold lastUsage. rewrite fold_left_app. reflexivity. Qed.

(** The loop never throws once the indices are in range, and what it leaves
    is read off the chunks. *)
Lemma feedResults_summary p inputs a :
  inRange (toolCalls (state a)) (currentToolCallIndices a) ->
  exists rs a1,
    feedResults p inputs a = Some (rs, a1)
    /\ feed p inputs a = Some a1
    /\ text (state a1) = text (state a) +:+ streamText inputs
    /\ rawToolCallEvents (state a1) = rawToolCallEvents (state a) ++ toolCallChunks inputs
    /\ usage (state a1) = lastUsage p inputs (usage (state a))
    /\ responseId (state a1) = default (responseId (state a)) (ch_id ∘ snd <$> last inputs)
    /\ model (state a1) = default (model (state a)) (ch_model ∘ snd <$> last inputs)
    /\ startTime (timing (state a1)) = startTime (timing (state a))
    /\ firstChunkTime (timing (state a1))
       = match firstChunkTime (timing (state a)) with
         | Some t => Some t
         | None => fst <$> head inputs
         end
    /\ map isToolCallChunk rs = map (fun input => carriesToolCalls (snd input)) inputs
    /\ (forall k r,
          rs !! k = Some r ->
          isFinal r = match p with
                      | minimax => default false (carriesFinishReason <$> inputs !! k)
                      | mistral =>
                          bool_decide
                            (is_Some (lastUsage p (take (S k) inputs) (usage (state a))))
                      end).
Proof.
  revert a. induction inputs as [|[now chunk] inputs IH]; intros a Hin.
  - exists [], a. cbn. rewrite string_app_nil_r, app_nil_r.
    repeat split; try reflexivity.
    + destruct (firstChunkTime (timing (state a))); reflexivity.
    + intros k r H. destruct k; discriminate H.
  - destruct (processChunk_fields p now chunk a Hin)
      as (r & a1 & Hstep & Hin1 & Hid & Hmodel & Htiming & Htext & Husage & Hraw
          & Htool & Hfinal).
    destruct (IH a1 Hin1)
      as (rs & a2 & Hrun & Hfeed & Htext2 & Hraw2 & Husage2 & Hid2 & Hmodel2 & Hstart2
          & Hfirst2 & Htools2 & Hfinal2).
    exists (r :: rs), a2. cbn [feedResults feed]. rewrite Hstep, Hrun.
    split; [reflexivity|]. split; [exact Hfeed|].
    split. { rewrite Htext2, Htext. cbn [streamText foldr snd]. apply string_app_assoc. }
    split. { rewrite Hraw2, Hraw. unfold toolCallChunks. cbn [map snd filter list_filter].
             destruct (carriesToolCalls chunk) eqn:E.
             - rewrite decide_True by reflexivity. rewrite <- app_assoc. reflexivity.
             - rewrite decide_False by discriminate. rewrite app_nil_r. reflexivity. }
    split. { rewrite Husage2, Husage. reflexivity. }
    split. { rewrite Hid2, Hid. destruct inputs as [|i inputs]; [reflexivity|].
             change (last ((now, chunk) :: i :: inputs)) with (last (i :: inputs)).
             destruct (last (i :: inputs)) eqn:E; [reflexivity|].
             apply last_None in E. discriminate. }
    split. { rewrite Hmodel2, Hmodel. destruct inputs as [|i inputs]; [reflexivity|].
             change (last ((now, chunk) :: i :: inputs)) with (last (i :: inputs)).
             destruct (last (i :: inputs)) eqn:E; [reflexivity|].
             apply last_None in E. discriminate. }
    split. { rewrite Hstart2, Htiming. unfold markFirstChunk.
             destruct (firstChunkTime (timing (state a))); reflexivity. }
    split. { rewrite Hfirst2, Htiming. unfold markFirstChunk.
             destruct (firstChunkTime (timing (state a))) eqn:E; cbn; [rewrite E|];
               reflexivity. }
    split. { cbn [map snd]. rewrite Htool, Htools2. reflexivity. }
    intros k r0 Hk. destruct k as [|k].
    + injection Hk as <-. rewrite Hfinal. destruct p; [reflexivity|].
      rewrite Husage. reflexivity.
    + cbn [lookup list_lookup] in Hk. rewrite (Hfinal2 k r0 Hk).
      destruct p; [reflexivity|]. rewrite Husage. reflexivity.
Qed.

Lemma lastUsage_app p xs ys current :
  lastUsage p (xs ++ ys) current = lastUsage p ys (lastUsage p xs current).
Proof. unfold lastUsage. apply fold_left_app. Qed.

Lemma lastUsage_take_mono p inputs current i j :
  i <= j ->
  is_Some (lastUsage p (take i inputs) current) ->
  is_Some (lastUsage p (take j inputs) current).
Proof.
  intros Hij Hi.
  rewrite <- (take_drop i (take j inputs)).
  rewrite take_take, Nat.min_l by exact Hij.
  rewrite lastUsage_app. apply lastUsage_kept, Hi.
Qed.

(** X3. Over any stream fed to a fresh stream adapter of either provider,
    the accumulated text is exactly the concatenation, in arrival order, of
    the contents of the first choices of the chunks (an absent or empty
    content adds nothing, and so does a chunk with no choice). *)
Theorem stream_text_is_the_contents_in_order
    (p : Provider) (start : Z) (inputs : list (Z * Chunk)) :
  exists a,
    feed p inputs (new start) = Some a
    /\ text (state a) = streamText inputs.
Proof.
  destruct (feedResults_summary p inputs (new start) (new_inRange start))
    as (rs & a & _ & Hfeed & Htext & _).
  exists a. split; [exact Hfeed|]. exact Htext.
Qed.

(** X4. Over any stream fed to a fresh stream adapter of either provider,
    the replay buffer holds exactly the chunks whose first choice has a
    [tool_calls] array, in arrival order; these are the chunks reported as
    tool-call chunks, and [getRawToolCallEvents] returns one frame for each
    of them. *)
Theorem replay_buffer_holds_the_tool_call_chunks
    (p : Provider) (start : Z) (inputs : list (Z * Chunk)) :
  exists rs a,
    feedResults p inputs (new start) = Some (rs, a)
    /\ rawToolCallEvents (state a) = toolCallChunks inputs
    /\ getRawToolCallEvents a = map DataFrame (toolCallChunks inputs)
    /\ map isToolCallChunk rs = map (fun input => carriesToolCalls (snd input)) inputs
    /\ length (getRawToolCallEvents a)
       = length (filter (fun r => isToolCallChunk r = true) rs).
Proof.
  destruct (feedResults_summary p inputs (new start) (new_inRange start))
    as (rs & a & Hrun & _ & _ & Hraw & _ & _ & _ & _ & _ & Htools & _).
  cbn [new state rawToolCallEvents app] in Hraw.
  exists rs, a. split; [exact Hrun|]. split; [exact Hraw|].
  split; [unfold getRawToolCallEvents; rewrite Hraw; reflexivity|].
  split; [exact Htools|].
  unfold getRawToolCallEvents. rewrite length_map, Hraw. unfold toolCallChunks.
  clear -Htools. revert rs Htools.
  induction inputs as [|input inputs IH]; intros [|r rs] Htools;
    try discriminate Htools; [reflexivity|].
  cbn [map] in Htools. injection Htools as Hr Hrs.
  cbn [map filter list_filter]. rewrite Hr.
  destruct (carriesToolCalls (snd input)).
  - rewrite !decide_True by reflexivity. cbn [length]. f_equal. apply IH, Hrs.
  - rewrite !decide_False by discriminate. apply IH, Hrs.
Qed.

(** X5. Over any stream fed to a fresh stream adapter of either provider,
    the response id and the model are those of the last chunk (empty when
    there was none), the start time is the one of the construction, and the
    first-chunk time is the arrival time of the first chunk, whatever
    arrives later. *)
Theorem stream_identity_and_timing
    (p : Provider) (start : Z) (inputs : list (Z * Chunk)) :
  exists a,
    feed p inputs (new start) = Some a
    /\ responseId (state a) = default "" (ch_id ∘ snd <$> last inputs)
    /\ model (state a) = default "" (ch_model ∘ snd <$> last inputs)
    /\ startTime (timing (state a)) = start
    /\ firstChunkTime (timing (state a)) = fst <$> head inputs.
Proof.
  destruct (feedResults_summary p inputs (new start) (new_inRange start))
    as (rs & a & _ & Hfeed & _ & _ & _ & Hid & Hmodel & Hstart & Hfirst & _).
  exists a. repeat split; assumption.
Qed.

(** X6. Over any stream fed to a fresh stream adapter, the accumulated
    usage is that of the last chunk the adapter reads a usage from, and
    none if there is no such chunk: Mistral reads the usage of every chunk
    that has one, MiniMax only of a chunk that also has a choice. Read
    through [toProviderResponse], a stream whose usage was never read
    reports 0 prompt and 0 completion tokens. *)
Theorem stream_usage_is_the_last_one_read
    (p : Provider) (start now : Z) (inputs : list (Z * Chunk)) :
  exists a,
    feed p inputs (new start) = Some a
    /\ usage (state a) = lastUsage p inputs None
    /\ resp_usage (toProviderResponse p now a)
       = Some {| completion_tokens :=
                   default 0%Z (outputTokens <$> lastUsage p inputs None);
                 prompt_tokens :=
                   default 0%Z (inputTokens <$> lastUsage p inputs None);
                 total_tokens :=
                   (default 0 (inputTokens <$> lastUsage p inputs None)
                    + default 0 (outputTokens <$> lastUsage p inputs None))%Z |}.
Proof.
  destruct (feedResults_summary p inputs (new start) (new_inRange start))
    as (rs & a & _ & Hfeed & _ & _ & Husage & _).
  exists a. split; [exact Hfeed|]. split; [exact Husage|].
  cbn [toProviderResponse resp_usage]. rewrite Husage. reflexivity.
Qed.

(** X7. A terminal chunk that has no choice and carries the usage, after
    any stream: Mistral records its usage and reports the chunk as final;
    MiniMax leaves the usage it held and reports the chunk as not final. *)
Theorem usage_chunk_without_choice
    (start now : Z) (inputs : list (Z * Chunk)) (chunk : Chunk) (u : ChunkUsage) :
  ch_choices chunk = [] -> ch_usage chunk = Some u ->
  (exists rs a,
     feedResults mistral (inputs ++ [(now, chunk)]) (new start) = Some (rs, a)
     /\ usage (state a) = Some (usageView u)
     /\ isFinal <$> last rs = Some true)
  /\ (exists rs a,
        feedResults minimax (inputs ++ [(now, chunk)]) (new start) = Some (rs, a)
        /\ usage (state a) = lastUsage minimax inputs None
        /\ isFinal <$> last rs = Some false).
Proof.
  intros Hchoices Husage.
  split.
  - destruct (feedResults_summary mistral (inputs ++ [(now, chunk)]) (new start)
                (new_inRange start))
      as (rs & a & Hrun & _ & _ & _ & Hu & _ & _ & _ & _ & Htools & Hfinal).
    exists rs, a. split; [exact Hrun|].
    assert (lastUsage mistral (inputs ++ [(now, chunk)]) None = Some (usageView u)) as Hlast.
    { rewrite lastUsage_snoc. unfold usageRead. cbn [snd]. rewrite Husage. reflexivity. }
    split; [rewrite Hu; exact Hlast|].
    assert (length rs = length (inputs ++ [(now, chunk)])) as Hlen.
    { apply (f_equal length) in Htools. rewrite !length_map in Htools. exact Htools. }
    rewrite length_app in Hlen. cbn [length] in Hlen.
    rewrite last_lookup. replace (pred (length rs)) with (length inputs) by lia.
    destruct (lookup_lt_is_Some_2 rs (length inputs) ltac:(lia)) as [r Hr].
    rewrite Hr. cbn. f_equal. rewrite (Hfinal _ _ Hr).
    rewrite take_ge by (rewrite length_app; cbn; lia).
    cbn [new state usage]. rewrite Hlast. reflexivity.
  - destruct (feedResults_summary minimax (inputs ++ [(now, chunk)]) (new start)
                (new_inRange start))
      as (rs & a & Hrun & _ & _ & _ & Hu & _ & _ & _ & _ & Htools & Hfinal).
    exists rs, a. split; [exact Hrun|].
    split.
    { rewrite Hu, lastUsage_snoc. unfold usageRead. cbn [snd]. rewrite Hchoices.
      reflexivity. }
    assert (length rs = length (inputs ++ [(now, chunk)])) as Hlen.
    { apply (f_equal length) in Htools. rewrite !length_map in Htools. exact Htools. }
    rewrite length_app in Hlen. cbn [length] in Hlen.
    rewrite last_lookup. replace (pred (length rs)) with (length inputs) by lia.
    destruct (lookup_lt_is_Some_2 rs (length inputs) ltac:(lia)) as [r Hr].
    rewrite Hr. cbn. f_equal. rewrite (Hfinal _ _ Hr).
    rewrite lookup_app_r, Nat.sub_diag by lia. cbn.
    unfold carriesFinishReason. cbn [snd]. rewrite Hchoices. reflexivity.
Qed.

(** X8. The results of the chunks of any stream fed to a fresh stream
    adapter: for MiniMax a result is final exactly when the first choice
    of its chunk carries a finish reason; for Mistral a result is final
    exactly when this chunk or an earlier one carried a usage, so that
    once a result is final every later one is. *)
Theorem finality_of_the_results
    (p : Provider) (start : Z) (inputs : list (Z * Chunk)) :
  exists rs a,
    feedResults p inputs (new start) = Some (rs, a)
    /\ length rs = length inputs
    /\ (forall k r,
          rs !! k = Some r ->
          isFinal r = match p with
                      | minimax => default false (carriesFinishReason <$> inputs !! k)
                      | mistral =>
                          bool_decide (is_Some (lastUsage p (take (S k) inputs) None))
                      end)
    /\ (p = mistral ->
        forall i j ri rj,
          i <= j -> rs !! i = Some ri -> rs !! j = Some rj ->
          isFinal ri = true -> isFinal rj = true).
Proof.
  destruct (feedResults_summary p inputs (new start) (new_inRange start))
    as (rs & a & Hrun & _ & _ & _ & _ & _ & _ & _ & _ & Htools & Hfinal).
  exists rs, a. split; [exact Hrun|].
  split. { apply (f_equal length) in Htools. rewrite !length_map in Htools. exact Htools. }
  split; [exact Hfinal|].
  intros -> i j ri rj Hij Hi Hj Hfi.
  rewrite (Hfinal _ _ Hj). rewrite (Hfinal _ _ Hi) in Hfi.
  apply bool_decide_eq_true in Hfi. apply bool_decide_eq_true.
  eapply lastUsage_take_mono; [|exact Hfi]. lia.
Qed.

End SummaryFacts.

(** ** The response accessors *)

Section ResponseAccessFacts.
Import ResponseAdapter ResponseAccessors.
Context {Value : Type} (JSON_parse : string -> option Value).

Lemma commonToolCall_fields p toolCall :
  commonToolCall JSON_parse p toolCall
  = {| call_id := tc_id toolCall;
       call_name := fc_name (tc_function toolCall);
       call_arguments := parseArguments JSON_parse (fc_arguments (tc_function toolCall)) |}.
Proof. destruct p; cbn; [destruct (tc_type toolCall)|]; reflexivity. Qed.

(** X9. For every response, [hasToolCalls] is true exactly when
    [getToolCalls] returns a call; [getToolCalls] returns one call for each
    tool call of the first choice, in order and with its id and name; and
    the two providers' adapters read the same text and the same calls
    from the same response, although one reads the content through [??] and
    the other through [||]. *)
Theorem response_accessors_agree (p : Provider) (a : ResponseAdapter.t) :
  (hasToolCalls a = true <-> getToolCalls JSON_parse p a <> [])
  /\ map call_id (getToolCalls JSON_parse p a)
     = map tc_id (default [] (head (resp_choices (response a))
                                ≫= fun choice => rm_tool_calls (choice_message choice)))
  /\ map call_name (getToolCalls JSON_parse p a)
     = map (fun toolCall => fc_name (tc_function toolCall))
         (default [] (head (resp_choices (response a))
                        ≫= fun choice => rm_tool_calls (choice_message choice)))
  /\ getToolCalls JSON_parse minimax a = getToolCalls JSON_parse mistral a
  /\ getText minimax a = getText mistral a.
Proof.
  unfold hasToolCalls, getToolCalls, getText.
  destruct (resp_choices (response a)) as [|choice rest]; cbn.
  { repeat split; try reflexivity; [discriminate|congruence]. }
  destruct (rm_tool_calls (choice_message choice)) as [toolCalls|]; cbn.
  - split.
    { destruct toolCalls; cbn; split; try discriminate; try congruence; reflexivity. }
    rewrite !map_map.
    split; [apply map_ext; intro; rewrite commonToolCall_fields; reflexivity|].
    split; [apply map_ext; intro; rewrite commonToolCall_fields; reflexivity|].
    split; [apply map_ext; intro; rewrite !commonToolCall_fields; reflexivity|].
    destruct (rm_content (choice_message choice)) as [content|]; cbn; [|reflexivity].
    destruct (String.eqb_spec content ""); cbn; congruence.
  - split; [split; [discriminate|congruence]|].
    repeat split.
    destruct (rm_content (choice_message choice)) as [content|]; cbn; [|reflexivity].
    destruct (String.eqb_spec content ""); cbn; congruence.
Qed.

(** X10. Read through an adapter of the same provider or of the other one,
    the refusal response of any response has the content message as its
    text and no tool call, and the id, the model and the usage of the
    response it replaces. *)
Theorem refusal_is_read_back
    (p q : Provider) (refusalMessage contentMessage : string) (a : ResponseAdapter.t) :
  let refused := {| response := toRefusalResponse p refusalMessage contentMessage a |} in
  getText q refused = contentMessage
  /\ getToolCalls JSON_parse q refused = []
  /\ hasToolCalls refused = false
  /\ getId refused = getId a
  /\ getModel refused = getModel a
  /\ getUsage refused = getUsage a.
Proof.
  cbn zeta. unfold getText, getToolCalls, hasToolCalls, getId, getModel, getUsage.
  cbn [response toRefusalResponse resp_choices choice_message rm_content rm_tool_calls
       resp_id resp_model resp_usage].
  split.
  { destruct q; [reflexivity|]. cbn [truthy default].
    destruct (String.eqb_spec contentMessage "") as [->|]; reflexivity. }
  split; [destruct p; reflexivity|].
  split; [destruct p; reflexivity|].
  repeat split.
Qed.

Lemma finalised_text (p q : Provider) (now : Z) (s : StreamAdapter.t) :
  getText q {| response := StreamAdapter.toProviderResponse p now s |}
  = StreamAdapter.text (StreamAdapter.state s).
Proof.
  unfold getText.
  cbn [response StreamAdapter.toProviderResponse resp_choices choice_message rm_content].
  cbn [truthy]. destruct (String.eqb_spec (StreamAdapter.text (StreamAdapter.state s)) "")
    as [->|Hne]; cbn.
  - destruct q; reflexivity.
  - destruct q; cbn; [reflexivity|].
    destruct (String.eqb_spec (StreamAdapter.text (StreamAdapter.state s)) "");
      [contradiction|reflexivity].
Qed.

Lemma finalised_calls (p q : Provider) (now : Z) (s : StreamAdapter.t) :
  getToolCalls JSON_parse q {| response := StreamAdapter.toProviderResponse p now s |}
  = map (fun tc => {| call_id := StreamAdapter.atc_id tc;
                      call_name := StreamAdapter.atc_name tc;
                      call_arguments := parseArguments JSON_parse (StreamAdapter.atc_arguments tc) |})
      (StreamAdapter.toolCalls (StreamAdapter.state s))
  /\ hasToolCalls {| response := StreamAdapter.toProviderResponse p now s |}
     = bool_decide (StreamAdapter.toolCalls (StreamAdapter.state s) <> []).
Proof.
  unfold getToolCalls, hasToolCalls.
  cbn [response StreamAdapter.toProviderResponse resp_choices choice_message rm_tool_calls].
  destruct (StreamAdapter.toolCalls (StreamAdapter.state s)) as [|tc tcs]; cbn.
  - split; reflexivity.
  - rewrite !commonToolCall_fields. cbn. split; [|reflexivity].
    f_equal. rewrite map_map. apply map_ext. intro.
    rewrite commonToolCall_fields. reflexivity.
Qed.

(** X11. Read through a response adapter, the response a stream adapter
    builds from any accumulator state has the accumulated text (also when
    it is empty and the content is null), the accumulated id and model, the
    accumulated usage or 0 and 0 when there is none, and one tool call for
    each accumulated one, in order, with its id, its name and its
    accumulated arguments parsed ([{}] when they do not parse). *)
Theorem finalised_stream_is_read_back
    (p q : Provider) (now : Z) (s : StreamAdapter.t) :
  let built := {| response := StreamAdapter.toProviderResponse p now s |} in
  let st := StreamAdapter.state s in
  getText q built = StreamAdapter.text st
  /\ getId built = StreamAdapter.responseId st
  /\ getModel built = StreamAdapter.model st
  /\ getUsage built
     = default {| inputTokens := 0; outputTokens := 0 |} (StreamAdapter.usage st)
  /\ getToolCalls JSON_parse q built
     = map (fun tc => {| call_id := StreamAdapter.atc_id tc;
                         call_name := StreamAdapter.atc_name tc;
                         call_arguments := parseArguments JSON_parse (StreamAdapter.atc_arguments tc) |})
         (StreamAdapter.toolCalls st)
  /\ hasToolCalls built = bool_decide (StreamAdapter.toolCalls st <> []).
Proof.
  cbn zeta. split; [apply finalised_text|].
  split; [reflexivity|]. split; [reflexivity|].
  split; [|apply finalised_calls].
  unfold getUsage. cbn.
  destruct (StreamAdapter.usage (StreamAdapter.state s)) as [[i o]|]; reflexivity.
Qed.

(** X12. A whole stream, read back: after any stream of chunks is fed to a
    fresh stream adapter and the response is built, a response adapter of
    either provider reads the concatenated contents as the text and one
    tool call per provider index, in the order the indices first occurred,
    with the id and the name accumulated for the index; its arguments are
    what [JSON.parse] makes of the argument fragments of the index put
    together in arrival order, however the text was cut into fragments,
    and the empty object when that text does not parse. *)
Theorem stream_is_read_back
    (p q : Provider) (start now : Z) (inputs : list (Z * Chunk)) :
  exists s,
    StreamSpec.feed p inputs (StreamAdapter.new start) = Some s
    /\ let built := {| response := StreamAdapter.toProviderResponse p now s |} in
       let deltas := StreamSpec.streamDeltas inputs in
       getText q built = StreamSummary.streamText inputs
       /\ getToolCalls JSON_parse q built
          = map (fun index =>
                   {| call_id := StreamAdapter.atc_id (StreamSpec.accumulated deltas index);
                      call_name :=
                        StreamAdapter.atc_name (StreamSpec.accumulated deltas index);
                      call_arguments :=
                        parseArguments JSON_parse
                          (StreamSpec.concatenated
                             (map StreamAdapter.deltaArguments
                                (StreamSpec.ofIndex index deltas))) |})
              (StreamSpec.firstSeen deltas)
       /\ forall slot index,
            StreamSpec.firstSeen deltas !! slot = Some index ->
            exists call,
              getToolCalls JSON_parse q built !! slot = Some call
              /\ (forall value,
                    JSON_parse
                      (StreamSpec.concatenated
                         (map StreamAdapter.deltaArguments
                            (StreamSpec.ofIndex index deltas)))
                    = Some value ->
                    call_arguments call = ParsedArguments value)
              /\ (JSON_parse
                    (StreamSpec.concatenated
                       (map StreamAdapter.deltaArguments
                          (StreamSpec.ofIndex index deltas)))
                  = None ->
                  call_arguments call = EmptyArguments).
Proof.
  destruct (feed_tracks p inputs [] (StreamAdapter.new start)) as (s & Hfeed & Hcalls & _).
  { split; [reflexivity|]. intros index slot. cbn. rewrite lookup_empty.
    split; discriminate. }
  cbn [app] in Hcalls.
  destruct (feedResults_summary p inputs (StreamAdapter.new start)
              (new_inRange start)) as (rs & s' & _ & Hfeed' & Htext & _).
  rewrite Hfeed in Hfeed'. injection Hfeed' as <-.
  exists s. split; [exact Hfeed|]. cbn zeta.
  destruct (finalised_calls p q now s) as [Hread _].
  split.
  { rewrite (finalised_text p q now s). exact Htext. }
  rewrite Hread, Hcalls, !map_map. split; [reflexivity|].
  intros slot index Hslot.
  eexists. rewrite !list_lookup_fmap, Hslot. split; [reflexivity|].
  cbn [call_arguments StreamSpec.accumulated StreamAdapter.atc_arguments].
  unfold parseArguments. split.
  - intros value ->. reflexivity.
  - intros ->. reflexivity.
Qed.

End ResponseAccessFacts.

(** ** Buffered modifications of a request *)

Section MutationFacts.
Import RequestAdapter RequestSpec RequestMutations.
Context {Value : Type} (JSON_parse : string -> option Value).

Lemma mutate_request m a : request (mutate m a) = request a.
Proof. destruct m; reflexivity. Qed.

Lemma mutateAll_request ms a : request (mutateAll ms a) = request a.
Proof.
  revert a. induction ms as [|m ms IH]; intros a; [reflexivity|].
  cbn [mutateAll fold_left]. fold (mutateAll ms (mutate m a)).
  rewrite IH. apply mutate_request.
Qed.

Lemma mutateAll_snoc ms m a : mutateAll (ms ++ [m]) a = mutate m (mutateAll ms a).
Proof. unfold mutateAll. rewrite fold_left_app. reflexivity. Qed.

Lemma mutateAll_model ms a :
  modifiedModel (mutateAll ms a)
  = match last (omap modelSet ms) with
    | Some model => Some model
    | None => modifiedModel a
    end.
Proof.
  induction ms as [|m ms IH] using rev_ind; [reflexivity|].
  rewrite mutateAll_snoc, omap_app. destruct m; cbn [omap list_omap modelSet mutate].
  - rewrite last_snoc. reflexivity.
  - rewrite app_nil_r. exact IH.
  - rewrite app_nil_r. exact IH.
Qed.

(** One message of the rebuilt request. *)
Lemma applyUpdates_lookup messages updates i :
  applyUpdates messages updates !! i
  = (fun message =>
       match message with
       | MTool tm =>
           match updates !! tm_tool_call_id tm with
           | Some content =>
               if String.eqb content "" then message
               else MTool (Toon.withContent tm content)
           | None => message
           end
       | _ => message
       end) <$> messages !! i.
Proof.
  unfold applyUpdates. destruct (size updates =? 0)%nat eqn:Hsize.
  - apply Nat.eqb_eq, map_size_empty_inv in Hsize. subst updates.
    destruct (messages !! i) as [message|]; [|reflexivity].
    destruct message; try rewrite lookup_empty; reflexivity.
  - rewrite list_lookup_fmap. destruct (messages !! i) as [message|]; [|reflexivity].
    cbn. f_equal. destruct message; try reflexivity.
    destruct (updates !! tm_tool_call_id m) as [content|]; cbn; [|reflexivity].
    destruct (String.eqb content ""); reflexivity.
Qed.

Lemma built_messages_lookup a i :
  req_messages (fst (toProviderRequest a)) !! i
  = (fun message =>
       match message with
       | MTool tm =>
           match toolResultUpdates a !! tm_tool_call_id tm with
           | Some content =>
               if String.eqb content "" then message
               else MTool (Toon.withContent tm content)
           | None => message
           end
       | _ => message
       end) <$> req_messages (request a) !! i.
Proof.
  cbn [toProviderRequest fst req_messages].
  destruct (0 <? size (toolResultUpdates a))%nat eqn:Hsize.
  - apply applyUpdates_lookup.
  - apply Nat.ltb_ge in Hsize.
    assert (toolResultUpdates a = ∅) as ->.
    { apply map_size_empty_inv. lia. }
    destruct (req_messages (request a) !! i) as [message|]; [|reflexivity].
    destruct message; try rewrite lookup_empty; reflexivity.
Qed.

(** X13. Whatever sequence of [setModel], [updateToolResult] and
    [applyToolResultUpdates] calls a request adapter has received, the
    reading accessors return what they return on the fresh adapter: the
    changes are buffered and the request given is not altered. The request
    that [toProviderRequest] builds has the model of the last [setModel]
    (the original one if there was none), the tools, the stream flag and
    the other properties of the request given, and as many messages, with
    the same roles; a message that is not a tool message is the one given,
    and a tool message answers the tool call it answered. *)
Theorem modifications_are_buffered
    (p : Provider) (r : Request) (ms : list Mutation) :
  let a := mutateAll ms (new r) in
  let built := fst (toProviderRequest a) in
  (fst (getMessages JSON_parse p a) = fst (getMessages JSON_parse p (new r))
   /\ fst (getToolResults JSON_parse p a) = fst (getToolResults JSON_parse p (new r))
   /\ fst (getProviderMessages a) = req_messages r
   /\ fst (getOriginalRequest a) = r
   /\ fst (getTools a) = fst (getTools (new r))
   /\ fst (hasTools a) = fst (hasTools (new r))
   /\ fst (isStreaming a) = fst (isStreaming (new r)))
  /\ req_model built = default (req_model r) (last (omap modelSet ms))
  /\ fst (getModel a) = req_model built
  /\ req_tools built = req_tools r
  /\ req_stream built = req_stream r
  /\ req_rest built = req_rest r
  /\ length (req_messages built) = length (req_messages r)
  /\ map role (req_messages built) = map role (req_messages r)
  /\ map answers (req_messages built) = map answers (req_messages r)
  /\ (forall i message,
        req_messages r !! i = Some message -> role message <> RoleTool ->
        req_messages built !! i = Some message).
Proof.
  cbn zeta.
  pose proof (mutateAll_request ms (new r)) as Hreq. cbn [new request] in Hreq.
  pose proof (mutateAll_model ms (new r)) as Hmodel. cbn [new modifiedModel] in Hmodel.
  assert (req_messages (fst (toProviderRequest (mutateAll ms (new r))))
          = (fun message =>
               match message with
               | MTool tm =>
                   match toolResultUpdates (mutateAll ms (new r)) !! tm_tool_call_id tm with
                   | Some content =>
                       if String.eqb content "" then message
                       else MTool (Toon.withContent tm content)
                   | None => message
                   end
               | _ => message
               end) <$> req_messages r) as Hlookup.
  { apply list_eq. intro i.
    rewrite list_lookup_fmap, built_messages_lookup, Hreq. reflexivity. }
  split.
  { unfold getMessages, getToolResults, getProviderMessages, getOriginalRequest, getTools,
      hasTools, isStreaming. cbn [fst]. rewrite Hreq. cbn [new request].
    repeat split; reflexivity. }
  split.
  { cbn [toProviderRequest fst req_model getModel]. rewrite Hreq, Hmodel.
    destruct (last (omap modelSet ms)); reflexivity. }
  split; [reflexivity|].
  split; [cbn; rewrite Hreq; reflexivity|].
  split; [cbn; rewrite Hreq; reflexivity|].
  split; [cbn; rewrite Hreq; reflexivity|].
  rewrite Hlookup.
  split; [apply length_fmap|].
  split.
  { change (@map Message Role) with (@fmap list _ Message Role).
    rewrite <- list_fmap_compose. apply list_fmap_ext. intros _ message _. cbn.
    destruct message; try reflexivity.
    destruct (toolResultUpdates (mutateAll ms (new r)) !! tm_tool_call_id m) as [c|];
      [destruct (String.eqb c "")|]; reflexivity. }
  split.
  { change (@map Message (option string)) with (@fmap list _ Message (option string)).
    rewrite <- list_fmap_compose. apply list_fmap_ext. intros _ message _. cbn.
    destruct message; try reflexivity.
    destruct (toolResultUpdates (mutateAll ms (new r)) !! tm_tool_call_id m) as [c|];
      [destruct (String.eqb c "")|]; reflexivity. }
  intros i message Hi Hrole. rewrite list_lookup_fmap, Hi. cbn. f_equal.
  destruct message; try reflexivity. contradiction Hrole. reflexivity.
Qed.

Lemma attached_results p messages scanned :
  concat (map (fun message => default [] (cm_toolCalls message))
            (map (toCommonMessage JSON_parse p messages) scanned))
  = filter (fun result =>
              truthy (findToolNameInMessages p messages (ctr_id result)) = true)
      (map (fun tm =>
              {| ctr_id := tm_tool_call_id tm;
                 ctr_name := default "unknown"
                               (findToolNameInMessages p messages (tm_tool_call_id tm));
                 ctr_content := toolContent JSON_parse (tm_content tm);
                 ctr_isError := false |})
         (toolMessages scanned)).
Proof.
  induction scanned as [|message scanned IH]; [reflexivity|].
  cbn [map concat]. rewrite IH. unfold toolMessages.
  destruct message; cbn [toCommonMessage cm_toolCalls default app omap list_omap map];
    try reflexivity.
  cbn [filter list_filter ctr_id].
  destruct (findToolNameInMessages p messages (tm_tool_call_id m)) as [name|] eqn:Hname.
  - destruct (truthy (Some name)) eqn:Htruthy.
    + rewrite decide_True by reflexivity. reflexivity.
    + rewrite decide_False by discriminate. reflexivity.
  - cbn [truthy]. rewrite decide_False by discriminate. reflexivity.
Qed.

(** X14. [getMessages] and [getToolResults] of any request: [getMessages]
    returns one message for each message of the request, with its role;
    the tool results it attaches are, in order, those of [getToolResults]
    whose tool call is found under a name that is not empty; a result that
    [getToolResults] reports under ["unknown"] for want of a call, or one
    whose call has an empty name, is attached to no message. *)
Theorem getMessages_attaches_the_named_results (p : Provider) (a : RequestAdapter.t) :
  let messages := req_messages (request a) in
  map cm_role (fst (getMessages JSON_parse p a)) = map role messages
  /\ map ctr_id (fst (getToolResults JSON_parse p a)) = map tm_tool_call_id (toolMessages messages)
  /\ concat (map (fun message => default [] (cm_toolCalls message)) (fst (getMessages JSON_parse p a)))
     = filter (fun result =>
                 truthy (findToolNameInMessages p messages (ctr_id result)) = true)
         (fst (getToolResults JSON_parse p a)).
Proof.
  cbn zeta. rewrite getToolResults_map. unfold getMessages. cbn [fst].
  rewrite toCommonFormat_map.
  split; [|split].
  - rewrite map_map. apply map_ext. intro message. unfold toCommonMessage.
    destruct message; try reflexivity.
    destruct (findToolNameInMessages p (req_messages (request a)) (tm_tool_call_id m))
      as [name|]; [destruct (truthy (Some name))|]; reflexivity.
  - rewrite map_map. reflexivity.
  - apply attached_results.
Qed.

(** X15. [hasTools] is true exactly when [getTools] returns a definition,
    and [getTools] returns one definition for each tool of the request, in
    order, under the name of its function. *)
Theorem hasTools_iff_getTools (a : RequestAdapter.t) :
  (fst (hasTools a) = true <-> fst (getTools a) <> [])
  /\ map ctd_name (fst (getTools a))
     = map (fun tool => fd_name (tool_function tool)) (default [] (req_tools (request a))).
Proof.
  unfold hasTools, getTools. cbn [fst].
  destruct (req_tools (request a)) as [tools|]; cbn [default].
  - assert (forall acc,
              fold_left
                (fun result tool =>
                   match tool_type tool with
                   | ToolFunction =>
                       result ++
                       [{| ctd_name := fd_name (tool_function tool);
                           ctd_description := fd_description (tool_function tool);
                           ctd_inputSchema := fd_parameters (tool_function tool) |}]
                   end) tools acc
              = acc ++
                map (fun tool =>
                       {| ctd_name := fd_name (tool_function tool);
                          ctd_description := fd_description (tool_function tool);
                          ctd_inputSchema := fd_parameters (tool_function tool) |}) tools)
      as Hfold.
    { induction tools as [|tool tools IH]; intros acc; cbn [fold_left map].
      - symmetry. apply app_nil_r.
      - rewrite IH. destruct (tool_type tool). rewrite <- app_assoc. reflexivity. }
    rewrite Hfold. cbn [app].
    split.
    + destruct tools; cbn; split; try discriminate; try congruence; reflexivity.
    + rewrite map_map. reflexivity.
  - split; [split; [discriminate|congruence]|reflexivity].
Qed.

End MutationFacts.

(** ** The conversation after compression, and the statistics *)

Section ToonSummaryFacts.
Import RequestAdapter Toon RequestSpec RequestMutations ToonSummary.
Context {Value : Type} (JSON_parse : string -> option Value).

Lemma compressMinimax_fst ext model message stats :
  fst (compressMinimax JSON_parse ext model message stats)
  = compressedMessage JSON_parse minimax ext model message.
Proof.
  destruct message; try reflexivity.
  unfold compressMinimax, compressedMessage, encoding, minimaxEncoding.
  destruct (JSON_parse (originalContent (tm_content m))) as [parsed|]; [|reflexivity].
  destruct (toonEncodeBudgeted ext parsed (tokenizerEncode ext model) 4000)
    as [[compressed []]|]; reflexivity.
Qed.

Lemma compressMistral_fst ext model message totals :
  fst (compressMistral JSON_parse ext message totals)
  = compressedMessage JSON_parse mistral ext model message.
Proof.
  destruct message; try reflexivity.
  unfold compressMistral, compressedMessage, encoding, mistralEncoding.
  destruct (tm_content m) as [content|parts]; [|reflexivity].
  destruct (unwrapToolContent ext content) as [unwrapped|]; [|reflexivity].
  destruct (JSON_parse unwrapped) as [parsed|]; [|reflexivity].
  destruct (toonEncode ext parsed) as [compressed|]; [|reflexivity].
  destruct (countTokens ext unwrapped); [|reflexivity].
  destruct (countTokens ext compressed); reflexivity.
Qed.

Lemma convertMinimax_messages ext model messages stats :
  fst (convertToolResultsToToonMinimax JSON_parse ext model messages stats)
  = map (compressedMessage JSON_parse minimax ext model) messages.
Proof.
  revert stats. induction messages as [|message messages IH]; intros stats; [reflexivity|].
  cbn [convertToolResultsToToonMinimax map].
  pose proof (compressMinimax_fst ext model message stats) as Hm.
  destruct (compressMinimax JSON_parse ext model message stats) as [m1 stats1].
  specialize (IH stats1).
  destruct (convertToolResultsToToonMinimax JSON_parse ext model messages stats1)
    as [rest stats2].
  cbn [fst] in *. rewrite Hm, IH. reflexivity.
Qed.

Lemma mapMistral_messages ext model messages totals :
  fst (mapMistral JSON_parse ext messages totals)
  = map (compressedMessage JSON_parse mistral ext model) messages.
Proof.
  revert totals. induction messages as [|message messages IH]; intros totals; [reflexivity|].
  cbn [mapMistral map].
  pose proof (compressMistral_fst ext model message totals) as Hm.
  destruct (compressMistral JSON_parse ext message totals) as [m1 totals1].
  specialize (IH totals1).
  destruct (mapMistral JSON_parse ext messages totals1) as [rest totals2].
  cbn [fst] in *. rewrite Hm, IH. reflexivity.
Qed.

Lemma applyToonCompression_request p ext model a :
  request (applyToonCompression JSON_parse p ext model a)
  = withMessages (request a)
      (map (compressedMessage JSON_parse p ext model) (req_messages (request a)))
  /\ modifiedModel (applyToonCompression JSON_parse p ext model a) = modifiedModel a
  /\ toolResultUpdates (applyToonCompression JSON_parse p ext model a)
     = toolResultUpdates a.
Proof.
  destruct p; unfold applyToonCompression.
  - unfold applyToonCompressionMinimax.
    pose proof (convertMinimax_messages ext model (req_messages (request a)) emptyStats) as H.
    destruct (convertToolResultsToToonMinimax JSON_parse ext model
                (req_messages (request a)) emptyStats) as [compressed stats].
    cbn [fst snd request modifiedModel toolResultUpdates] in *. rewrite H.
    split; [reflexivity|]. split; reflexivity.
  - unfold applyToonCompressionMistral, convertToolResultsToToonMistral.
    pose proof (mapMistral_messages ext model (req_messages (request a))
                  {| toolResultCount := 0; totalTokensBefore := 0; totalTokensAfter := 0 |})
      as H.
    destruct (mapMistral JSON_parse ext (req_messages (request a))
                {| toolResultCount := 0; totalTokensBefore := 0; totalTokensAfter := 0 |})
      as [compressed totals].
    cbn [fst snd request modifiedModel toolResultUpdates] in *. rewrite H.
    split; [reflexivity|]. split; reflexivity.
Qed.

Lemma compressedMessage_role p ext model message :
  role (compressedMessage JSON_parse p ext model message) = role message.
Proof.
  destruct message; try reflexivity. cbn [compressedMessage].
  destruct (encoding JSON_parse p ext model m); reflexivity.
Qed.

Lemma compressedMessage_answers p ext model message :
  answers (compressedMessage JSON_parse p ext model message) = answers message.
Proof.
  destruct message; try reflexivity. cbn [compressedMessage].
  destruct (encoding JSON_parse p ext model m); reflexivity.
Qed.

Lemma scanBackward_compressed p q ext model reversed toolCallId :
  scanBackward q (map (compressedMessage JSON_parse p ext model) reversed) toolCallId
  = scanBackward q reversed toolCallId.
Proof.
  induction reversed as [|message reversed IH]; [reflexivity|].
  destruct message; cbn [map compressedMessage scanBackward]; try exact IH.
  - rewrite IH. reflexivity.
  - destruct (encoding JSON_parse p ext model m); cbn [scanBackward]; exact IH.
Qed.

Lemma findToolNameInMessages_compressed p q ext model messages toolCallId :
  findToolNameInMessages q (map (compressedMessage JSON_parse p ext model) messages)
    toolCallId
  = findToolNameInMessages q messages toolCallId.
Proof.
  unfold findToolNameInMessages. rewrite <- map_rev. apply scanBackward_compressed.
Qed.

Lemma toolMessages_compressed p ext model messages :
  map tm_tool_call_id
    (toolMessages (map (compressedMessage JSON_parse p ext model) messages))
  = map tm_tool_call_id (toolMessages messages).
Proof.
  unfold toolMessages. induction messages as [|message messages IH]; [reflexivity|].
  destruct message; cbn [map omap list_omap compressedMessage]; try exact IH.
  destruct (encoding JSON_parse p ext model m); cbn [omap list_omap map];
    rewrite IH; reflexivity.
Qed.

Lemma through_ids {B : Type} (g : string -> B) (xs ys : list ToolMessage) :
  map tm_tool_call_id xs = map tm_tool_call_id ys ->
  map (fun tm => g (tm_tool_call_id tm)) xs = map (fun tm => g (tm_tool_call_id tm)) ys.
Proof.
  intros Hids.
  rewrite <- (map_map tm_tool_call_id g xs), <- (map_map tm_tool_call_id g ys), Hids.
  reflexivity.
Qed.

(** X16. [applyToonCompression] of either provider keeps the shape of the
    conversation: as many messages, with the same roles; every message
    that is not a tool message is untouched, and every tool message
    answers the tool call it answered; so every tool-call id is found
    under the name it was found under, and [getToolResults] reports the
    same ids under the same names; the model, the tools, the stream flag,
    and the pending model and tool-result updates are untouched. *)
Theorem compression_keeps_the_conversation_shape
    (p q : Provider) (ext : Externals Value) (model : string) (a : RequestAdapter.t) :
  let a1 := applyToonCompression JSON_parse p ext model a in
  let before := req_messages (request a) in
  let compressed := req_messages (request a1) in
  length compressed = length before
  /\ map role compressed = map role before
  /\ map answers compressed = map answers before
  /\ (forall i message,
        before !! i = Some message -> role message <> RoleTool ->
        compressed !! i = Some message)
  /\ (forall toolCallId,
        findToolNameInMessages q compressed toolCallId
        = findToolNameInMessages q before toolCallId)
  /\ map ctr_id (fst (getToolResults JSON_parse q a1))
     = map ctr_id (fst (getToolResults JSON_parse q a))
  /\ map ctr_name (fst (getToolResults JSON_parse q a1))
     = map ctr_name (fst (getToolResults JSON_parse q a))
  /\ fst (getModel a1) = fst (getModel a)
  /\ fst (getTools a1) = fst (getTools a)
  /\ fst (hasTools a1) = fst (hasTools a)
  /\ fst (isStreaming a1) = fst (isStreaming a)
  /\ modifiedModel a1 = modifiedModel a
  /\ toolResultUpdates a1 = toolResultUpdates a.
Proof.
  cbn zeta.
  destruct (applyToonCompression_request p ext model a) as (Hreq & Hmodel & Hupdates).
  rewrite !getToolResults_map, !map_map. cbn [ctr_id ctr_name].
  unfold getModel, getTools, hasTools, isStreaming. cbn [fst].
  rewrite Hreq, Hmodel, Hupdates.
  cbn [withMessages req_messages req_model req_tools req_stream].
  split; [apply length_map|].
  split; [rewrite map_map; apply map_ext; intro; apply compressedMessage_role|].
  split; [rewrite map_map; apply map_ext; intro; apply compressedMessage_answers|].
  split.
  { intros i message Hi Hrole.
    change (@map Message Message) with (@fmap list _ Message Message).
    rewrite list_lookup_fmap, Hi. cbn [fmap option_fmap option_map]. f_equal.
    destruct message; try reflexivity. contradiction Hrole. reflexivity. }
  split; [intro; apply findToolNameInMessages_compressed|].
  split; [apply (through_ids (fun id => id)), toolMessages_compressed|].
  split.
  { rewrite (through_ids
               (fun id => default "unknown"
                            (findToolNameInMessages q
                               (map (compressedMessage JSON_parse p ext model)
                                  (req_messages (request a)))
                               id))
               _ _ (toolMessages_compressed p ext model (req_messages (request a)))).
    apply map_ext. intro tm. rewrite findToolNameInMessages_compressed. reflexivity. }
  split; [reflexivity|]. split; [reflexivity|]. split; [reflexivity|].
  split; [reflexivity|]. split; reflexivity.
Qed.

Lemma contentLength_cons_tool tm messages :
  contentLength (MTool tm :: messages)
  = String.length (originalContent (tm_content tm)) + contentLength messages.
Proof. reflexivity. Qed.

Lemma contentLength_cons_other message messages :
  role message <> RoleTool -> contentLength (message :: messages) = contentLength messages.
Proof. destruct message; intros H; try reflexivity. contradiction H. reflexivity. Qed.

Lemma minimaxEncoded_cons_tool ext model tm messages :
  minimaxEncoded JSON_parse ext model (MTool tm :: messages)
  = match minimaxEncoding JSON_parse ext model tm with
    | Some compressed => compressed :: minimaxEncoded JSON_parse ext model messages
    | None => minimaxEncoded JSON_parse ext model messages
    end.
Proof. reflexivity. Qed.

Lemma minimaxEncoded_cons_other ext model message messages :
  role message <> RoleTool ->
  minimaxEncoded JSON_parse ext model (message :: messages)
  = minimaxEncoded JSON_parse ext model messages.
Proof. destruct message; intros H; try reflexivity. contradiction H. reflexivity. Qed.

Lemma compressMinimax_stats ext model tm stats :
  let stats1 := snd (compressMinimax JSON_parse ext model (MTool tm) stats) in
  let after :=
    match minimaxEncoding JSON_parse ext model tm with
    | Some compressed => compressed
    | None => originalContent (tm_content tm)
    end in
  originalBytes stats1
  = originalBytes stats + String.length (originalContent (tm_content tm))
  /\ compressedBytes stats1 = compressedBytes stats + String.length after
  /\ compressedCount stats1
     = compressedCount stats
       + match minimaxEncoding JSON_parse ext model tm with Some _ => 1 | None => 0 end
  /\ removedBytes stats1 = removedBytes stats
  /\ removedCount stats1 = removedCount stats.
Proof.
  cbn zeta. unfold compressMinimax, minimaxEncoding.
  destruct (JSON_parse (originalContent (tm_content tm))) as [parsed|].
  - destruct (toonEncodeBudgeted ext parsed (tokenizerEncode ext model) 4000)
      as [[compressed []]|]; cbn; (split; [lia|]); (split; [lia|]); (split; [lia|]);
      split; reflexivity.
  - cbn. (split; [lia|]); (split; [lia|]); (split; [lia|]); split; reflexivity.
Qed.

Lemma convertMinimax_stats ext model messages stats :
  let stats1 := snd (convertToolResultsToToonMinimax JSON_parse ext model messages stats) in
  originalBytes stats1 = originalBytes stats + contentLength messages
  /\ compressedBytes stats1
     = compressedBytes stats
       + contentLength (map (compressedMessage JSON_parse minimax ext model) messages)
  /\ compressedCount stats1
     = compressedCount stats + length (minimaxEncoded JSON_parse ext model messages)
  /\ removedBytes stats1 = removedBytes stats
  /\ removedCount stats1 = removedCount stats.
Proof.
  cbn zeta. revert stats.
  induction messages as [|message messages IH]; intros stats.
  { cbn. (split; [lia|]); (split; [lia|]); (split; [lia|]); split; reflexivity. }
  cbn [convertToolResultsToToonMinimax map].
  destruct (compressMinimax JSON_parse ext model message stats) as [m1 stats1] eqn:Em.
  specialize (IH stats1).
  destruct (convertToolResultsToToonMinimax JSON_parse ext model messages stats1)
    as [rest stats2].
  cbn [snd] in *. destruct IH as (Ho & Hc & Hn & Hrb & Hrc).
  assert (role message <> RoleTool \/ exists tm, message = MTool tm) as [Hother|[tm ->]].
  { destruct message; try (left; discriminate). right. eauto. }
  - assert (stats1 = stats) as ->.
    { destruct message; try (cbn in Em; congruence). contradiction Hother. reflexivity. }
    assert (compressedMessage JSON_parse minimax ext model message = message) as ->.
    { destruct message; try reflexivity. contradiction Hother. reflexivity. }
    rewrite !contentLength_cons_other, minimaxEncoded_cons_other by exact Hother.
    split; [exact Ho|]. split; [exact Hc|]. split; [exact Hn|]. split; assumption.
  - pose proof (compressMinimax_stats ext model tm stats) as Hone.
    rewrite Em in Hone. cbn [snd] in Hone. cbn zeta in Hone.
    destruct Hone as (Ho1 & Hc1 & Hn1 & Hrb1 & Hrc1).
    rewrite contentLength_cons_tool, minimaxEncoded_cons_tool.
    cbn [compressedMessage encoding].
    destruct (minimaxEncoding JSON_parse ext model tm) as [compressed|].
    + rewrite contentLength_cons_tool. cbn [withContent tm_content originalContent length].
      split; [lia|]. split; [lia|]. split; [lia|]. split; congruence.
    + rewrite contentLength_cons_tool.
      split; [lia|]. split; [lia|]. split; [lia|]. split; congruence.
Qed.

Lemma minimax_none_encoded ext model messages :
  minimaxEncoded JSON_parse ext model messages = [] ->
  map (compressedMessage JSON_parse minimax ext model) messages = messages.
Proof.
  induction messages as [|message messages IH]; intros Hnone; [reflexivity|].
  assert (role message <> RoleTool \/ exists tm, message = MTool tm) as [Hother|[tm ->]].
  { destruct message; try (left; discriminate). right. eauto. }
  - rewrite minimaxEncoded_cons_other in Hnone by exact Hother.
    cbn [map]. rewrite (IH Hnone). f_equal.
    destruct message; try reflexivity. contradiction Hother. reflexivity.
  - rewrite minimaxEncoded_cons_tool in Hnone. cbn [map compressedMessage encoding].
    destruct (minimaxEncoding JSON_parse ext model tm); [discriminate Hnone|].
    rewrite (IH Hnone). reflexivity.
Qed.

(** X17. The statistics MiniMax's [applyToonCompression] returns:
    [originalBytes] is the total length of the contents of the tool
    messages before, [compressedBytes] their total length after,
    [compressedCount] the number of tool messages whose content parsed and
    was reported by the encoder as compressed, at most the number of tool
    messages; nothing is counted as removed; and when [compressedCount]
    is 0 the messages are the ones given and the two totals are equal. *)
Theorem minimax_statistics_are_the_totals
    (ext : Externals Value) (model : string) (a : RequestAdapter.t) :
  let stats := fst (applyToonCompressionMinimax JSON_parse ext model a) in
  let before := req_messages (request a) in
  let compressed :=
    req_messages (request (snd (applyToonCompressionMinimax JSON_parse ext model a))) in
  originalBytes stats = contentLength before
  /\ compressedBytes stats = contentLength compressed
  /\ compressedCount stats = length (minimaxEncoded JSON_parse ext model before)
  /\ compressedCount stats <= length (toolMessages before)
  /\ removedBytes stats = 0
  /\ removedCount stats = 0
  /\ (compressedCount stats = 0 ->
      compressed = before /\ compressedBytes stats = originalBytes stats).
Proof.
  cbn zeta.
  destruct (applyToonCompression_request minimax ext model a) as (Hreq & _).
  unfold applyToonCompression in Hreq. rewrite Hreq. clear Hreq.
  unfold applyToonCompressionMinimax.
  pose proof (convertMinimax_stats ext model (req_messages (request a)) emptyStats) as Hstats.
  destruct (convertToolResultsToToonMinimax JSON_parse ext model
              (req_messages (request a)) emptyStats) as [compressed stats].
  cbn [fst snd withMessages req_messages] in *.
  destruct Hstats as (Ho & Hc & Hn & Hrb & Hrc).
  cbn [emptyStats originalBytes compressedBytes compressedCount removedBytes removedCount]
    in Ho, Hc, Hn, Hrb, Hrc.
  rewrite Nat.add_0_l in Ho, Hc, Hn.
  split; [exact Ho|]. split; [exact Hc|]. split; [exact Hn|].
  split.
  { rewrite Hn. unfold minimaxEncoded. generalize (toolMessages (req_messages (request a))).
    intros tms. induction tms as [|tm tms IH]; [reflexivity|].
    cbn [omap list_omap length]. destruct (minimaxEncoding JSON_parse ext model tm);
      cbn [length]; lia. }
  split; [exact Hrb|]. split; [exact Hrc|].
  intros Hzero. rewrite Hn in Hzero. apply length_zero_iff_nil in Hzero.
  rewrite Hc, Ho, (minimax_none_encoded _ _ _ Hzero). split; reflexivity.
Qed.







Lemma compressed_twice p ext model message :
  (forall tm compressed,
     minimaxEncoding JSON_parse ext model tm = Some compressed ->
     JSON_parse compressed = None) ->
  (forall tm compressed counts unwrapped,
     mistralEncoding JSON_parse ext tm = Some (compressed, counts) ->
     unwrapToolContent ext compressed = Some unwrapped ->
     JSON_parse unwrapped = None) ->
  compressedMessage JSON_parse p ext model (compressedMessage JSON_parse p ext model message)
  = compressedMessage JSON_parse p ext model message.
Proof.
  intros Hbudgeted Hplain. destruct message; try reflexivity.
  cbn [compressedMessage].
  destruct (encoding JSON_parse p ext model m) as [compressed|] eqn:Hfirst.
  - cbn [compressedMessage].
    assert (encoding JSON_parse p ext model (withContent m compressed) = None) as ->;
      [|reflexivity].
    destruct p; cbn [encoding] in *.
    + unfold minimaxEncoding. cbn [withContent tm_content originalContent].
      rewrite (Hbudgeted _ _ Hfirst). reflexivity.
    + destruct (mistralEncoding JSON_parse ext m) as [[compressed1 counts]|] eqn:Hm;
        [|discriminate Hfirst].
      cbn in Hfirst. injection Hfirst as ->.
      unfold mistralEncoding. cbn [withContent tm_content].
      destruct (unwrapToolContent ext compressed) as [unwrapped|] eqn:Hu; [|reflexivity].
      rewrite (Hplain _ _ _ _ Hm Hu). reflexivity.
  - cbn [compressedMessage]. rewrite Hfirst. reflexivity.
Qed.

(** X19. With an encoder whose output is not itself JSON, a second
    [applyToonCompression] changes nothing more: the adapter it leaves is
    the one the first left, so an encoding is never encoded again. *)
Theorem compression_twice_is_compression_once
    (p : Provider) (ext : Externals Value) (model : string) (a : RequestAdapter.t) :
  (forall parsed tokenizer budget compressed,
     toonEncodeBudgeted ext parsed tokenizer budget = Some (compressed, true) ->
     JSON_parse compressed = None) ->
  (forall parsed compressed unwrapped,
     toonEncode ext parsed = Some compressed ->
     unwrapToolContent ext compressed = Some unwrapped ->
     JSON_parse unwrapped = None) ->
  applyToonCompression JSON_parse p ext model (applyToonCompression JSON_parse p ext model a)
  = applyToonCompression JSON_parse p ext model a.
Proof.
  intros Hbudgeted Hplain.
  destruct (applyToonCompression_request p ext model
              (applyToonCompression JSON_parse p ext model a))
    as (Hreq2 & Hmodel2 & Hupdates2).
  destruct (applyToonCompression_request p ext model a) as (Hreq & Hmodel & Hupdates).
  destruct (applyToonCompression JSON_parse p ext model
              (applyToonCompression JSON_parse p ext model a)) as [r2 m2 u2].
  destruct (applyToonCompression JSON_parse p ext model a) as [r1 m1 u1].
  cbn [request modifiedModel toolResultUpdates] in *. subst m2 u2. f_equal.
  rewrite Hreq2, Hreq. unfold withMessages.
  cbn [req_model req_messages req_tools req_stream req_rest]. f_equal.
  rewrite map_map. apply map_ext. intro message.
  apply compressed_twice.
  - intros tm compressed Hencoding. unfold minimaxEncoding in Hencoding.
    destruct (JSON_parse (originalContent (tm_content tm))) as [parsed|];
      [|discriminate Hencoding].
    destruct (toonEncodeBudgeted ext parsed (tokenizerEncode ext model) 4000)
      as [[compressed1 []]|] eqn:Hencode; try discriminate Hencoding.
    injection Hencoding as ->. exact (Hbudgeted _ _ _ _ Hencode).
  - intros tm compressed counts unwrapped Hencoding Hunwrap.
    unfold mistralEncoding in Hencoding.
    destruct (tm_content tm) as [content|parts]; [|discriminate Hencoding].
    destruct (unwrapToolContent ext content) as [unwrapped0|]; [|discriminate Hencoding].
    destruct (JSON_parse unwrapped0) as [parsed|]; [|discriminate Hencoding].
    destruct (toonEncode ext parsed) as [compressed1|] eqn:Hencode;
      [|discriminate Hencoding].
    destruct (countTokens ext unwrapped0); [|discriminate Hencoding].
    destruct (countTokens ext compressed1); [|discriminate Hencoding].
    injection Hencoding as -> _. exact (Hplain _ _ _ Hencode Hunwrap).
Qed.

End ToonSummaryFacts.

(** ** Instances of the properties that have a premise *)

Section Instances.
Import RequestAdapter Toon ToonSummary MinimaxClient ClientSpec Examples MoreExamples.
Import StreamAdapter StreamSpec StreamSummary.

Lemma usage_chunk_without_choice_witness :
  (exists rs a,
     feedResults mistral ([(1%Z, textChunk None (Some "a"))] ++ [(2%Z, usageChunk)])
       (StreamAdapter.new 0)
     = Some (rs, a)
     /\ usage (state a) = Some {| inputTokens := 7; outputTokens := 3 |}
     /\ isFinal <$> last rs = Some true)
  /\ (exists rs a,
        feedResults minimax ([(1%Z, textChunk None (Some "a"))] ++ [(2%Z, usageChunk)])
          (StreamAdapter.new 0)
        = Some (rs, a)
        /\ usage (state a) = None
        /\ isFinal <$> last rs = Some false).
Proof.
  apply (usage_chunk_without_choice 0 2 [(1%Z, textChunk None (Some "a"))] usageChunk
           {| cu_prompt_tokens := Some 7%Z; cu_completion_tokens := Some 3%Z |});
    reflexivity.
Defined.

Lemma formatted_frames_are_read_back_witness :
  parseSSEStream read_text (Some samplePieces)
  = Some (omap (fun call => readBack read_text (chunkOf call)) sampleCalls).
Proof.
  apply (formatted_frames_are_read_back read_text sampleCalls samplePieces).
  vm_compute. reflexivity.
Defined.

Lemma compression_twice_is_compression_once_witness :
  applyToonCompression read_text mistral sampleExternals "m"
    (applyToonCompression read_text mistral sampleExternals "m"
       (RequestAdapter.new compressionRequest))
  = applyToonCompression read_text mistral sampleExternals "m"
      (RequestAdapter.new compressionRequest).
Proof.
  apply (compression_twice_is_compression_once read_text mistral sampleExternals "m"
           (RequestAdapter.new compressionRequest)).
  - intros parsed tokenizer budget compressed Hencode. cbn in Hencode.
    repeat match type of Hencode with
           | match ?x with _ => _ end = _ => destruct x; try discriminate Hencode
           end.
    injection Hencode as <-. reflexivity.
  - intros parsed compressed unwrapped Hencode Hunwrap. cbn in Hencode, Hunwrap.
    injection Hunwrap as <-.
    repeat match type of Hencode with
           | match ?x with _ => _ end = _ => destruct x; try discriminate Hencode
           end;
      injection Hencode as <-; reflexivity.
Defined.

End Instances.
